(** * open_prs.py: listing the open pull requests of a set of users

    A shallow embedding of [SUSE/open_prs/open_prs.py] and the
    properties of its settings loader, its repository filter, its age
    colouring and its report loop.

    The script is Python: values read from the settings file are
    dynamically typed, [print] and [sys.exit] are effects, and the file
    system, the environment, the clock, the date parser and the GitHub
    endpoint are outside the program.  The embedding keeps all of that
    visible: settings values are a small universe of TOML values with
    Python's [in], iteration and truthiness on them, effects live in a
    state and exit monad whose state is the output written so far, and
    everything outside the program is a field of a [World] record. *)

From Stdlib Require Import ZArith String Ascii List Lia.
From stdpp Require Import gmap strings list.

Local Open Scope string_scope.

(** ** Results of Python computations *)

(** The exceptions the script can meet; none of them is caught. *)
Inductive exn : Type :=
| TypeError
| OSError
| TomlDecodeError
| ParserError
| OverflowError
| RequestException.

(** A computation returns a value, leaves through [sys.exit], or raises. *)
Inductive result (A : Type) : Type :=
| Ret (a : A)
| Exit (code : Z)
| Raise (e : exn).

Arguments Ret {A} a.
Arguments Exit {A} code.
Arguments Raise {A} e.

Definition rbind {A B : Type} (r : result A) (k : A -> result B) : result B :=
  match r with
  | Ret a => k a
  | Exit c => Exit c
  | Raise e => Raise e
  end.

(** ** TOML values, with the Python operations the script applies to them

    Strings, integers, booleans, arrays and tables; floats and dates,
    for which the settings of this script have no use, are left out. *)

#[warnings="-register-all"]
Inductive toml_value : Type :=
| TString (s : string)
| TInteger (z : Z)
| TBool (b : bool)
| TArray (l : list toml_value)
| TTable (kvs : list (string * toml_value)).

(** The settings document: the dict that [toml.load] returns. *)
Abbreviation document := (gmap string toml_value).

(** [x in s] on strings: [x] occurs in [s] as a substring. *)
Fixpoint str_contains (x s : string) : bool :=
  String.prefix x s ||
  match s with
  | EmptyString => false
  | String _ s' => str_contains x s'
  end.

(** [v == x] for a string [x]: only an equal string compares equal. *)
Definition eq_str (x : string) (v : toml_value) : bool :=
  match v with
  | TString s => bool_decide (s = x)
  | _ => false
  end.

(** [x in c] for a string [x]. *)
Definition py_in (x : string) (c : toml_value) : result bool :=
  match c with
  | TArray l => Ret (existsb (eq_str x) l)
  | TString s => Ret (str_contains x s)
  | TTable kvs => Ret (existsb (fun kv => bool_decide (fst kv = x)) kvs)
  | TInteger _ | TBool _ => Raise TypeError
  end.

(** A byte of the form [10xxxxxx]: in UTF-8 it continues the character
    that the bytes before it began. *)
Definition is_continuation (a : ascii) : bool :=
  match a with
  | Ascii _ _ _ _ _ _ b6 b7 => b7 && negb b6
  end.

(** The string from the right: the continuation bytes that still wait
    for their first byte, and the characters complete so far. *)
Fixpoint chars_from_right (s : string) : string * list toml_value :=
  match s with
  | EmptyString => (EmptyString, [])
  | String a s' =>
      let '(pending, complete) := chars_from_right s' in
      if is_continuation a then (String a pending, complete)
      else (EmptyString, TString (String a pending) :: complete)
  end.

(** The one-character strings of a string.  A Python string is a
    sequence of code points; here it is kept as its UTF-8 bytes, so a
    character is a first byte with the continuation bytes that follow
    it. *)
Definition chars (s : string) : list toml_value :=
  let '(pending, complete) := chars_from_right s in
  match pending with
  | EmptyString => complete
  | _ => TString pending :: complete
  end.

(** [for x in c]: the elements the loop visits. *)
Definition py_iter (c : toml_value) : result (list toml_value) :=
  match c with
  | TArray l => Ret l
  | TString s => Ret (chars s)
  | TTable kvs => Ret (map (fun kv => TString (fst kv)) kvs)
  | TInteger _ | TBool _ => Raise TypeError
  end.

(** [bool(v)]. *)
Definition truthy (v : toml_value) : bool :=
  match v with
  | TString s => negb (bool_decide (s = ""))
  | TInteger z => negb (Z.eqb z 0)
  | TBool b => b
  | TArray l => negb (bool_decide (l = []))
  | TTable kvs => negb (bool_decide (kvs = []))
  end.

(** ** The GraphQL response *)

Record Repository : Type := {
  id : string;
  nameWithOwner : string
}.

Record PullRequest : Type := {
  repository : Repository;
  createdAt : string;
  number : Z;
  title : string;
  url : string
}.

Record PageInfo : Type := {
  hasNextPage : bool;
  endCursor : option string
}.

Record PullRequestConnection : Type := {
  totalCount : Z;
  nodes : list PullRequest;
  pageInfo : PageInfo
}.

Record User : Type := {
  name : option string;
  login : string;
  pullRequests : PullRequestConnection
}.

(** The spec's [repository_identifier]. *)
Definition repository_identifier (pull_request : PullRequest) : string :=
  nameWithOwner (repository pull_request).

(** ** [filter_prs_by_repos] (lines 122-126)

    [[pull_request for pull_request in pull_requests
      if pull_request['repository']['nameWithOwner'] in repos]] *)
Fixpoint filter_prs_by_repos (pull_requests : list PullRequest) (repos : toml_value)
  : result (list PullRequest) :=
  match pull_requests with
  | [] => Ret []
  | pull_request :: rest =>
      rbind (py_in (repository_identifier pull_request) repos) (fun keep =>
      rbind (filter_prs_by_repos rest repos) (fun kept =>
      Ret (if keep then pull_request :: kept else kept)))
  end.

(** ** [datetime] and [timedelta]

    The parts of Python's [datetime] module that line 79 to line 83 use.
    A [timedelta] is kept normalised by its constructor, as in CPython:
    [0 <= seconds < 86400] and [0 <= microseconds < 1000000]; the
    comparison is the comparison of the triples. *)

Record timedelta : Type := Timedelta {
  td_days : Z;
  td_seconds : Z;
  td_microseconds : Z
}.

(** [timedelta(days, seconds, microseconds)] on integers: the carrying
    of microseconds into seconds and of seconds into days. *)
Definition timedelta_of (days seconds microseconds : Z) : timedelta :=
  let s := (seconds + microseconds / 1000000)%Z in
  {| td_days := days + s / 86400;
     td_seconds := s mod 86400;
     td_microseconds := microseconds mod 1000000 |}.

(** The largest number of days of a [timedelta]. *)
Definition max_delta_days : Z := 999999999.

(** The call [timedelta(days, seconds, microseconds)]: the normalised
    value, or [OverflowError] when its days are out of range. *)
Definition timedelta_new (days seconds microseconds : Z) : result timedelta :=
  let t := timedelta_of days seconds microseconds in
  if (Z.abs (td_days t) >? max_delta_days)%Z then Raise OverflowError else Ret t.

Definition timedelta_add (a b : timedelta) : timedelta :=
  timedelta_of (td_days a + td_days b) (td_seconds a + td_seconds b)
               (td_microseconds a + td_microseconds b).

Definition timedelta_sub (a b : timedelta) : timedelta :=
  timedelta_of (td_days a - td_days b) (td_seconds a - td_seconds b)
               (td_microseconds a - td_microseconds b).

Definition timedelta_eqb (a b : timedelta) : bool :=
  Z.eqb (td_days a) (td_days b) && Z.eqb (td_seconds a) (td_seconds b)
  && Z.eqb (td_microseconds a) (td_microseconds b).

(** [a > b]: the triples compared from the days down. *)
Definition timedelta_gtb (a b : timedelta) : bool :=
  match Z.compare (td_days a) (td_days b) with
  | Gt => true
  | Lt => false
  | Eq =>
      match Z.compare (td_seconds a) (td_seconds b) with
      | Gt => true
      | Lt => false
      | Eq => Z.gtb (td_microseconds a) (td_microseconds b)
      end
  end.

(** A [datetime]: the date as its proleptic Gregorian ordinal
    ([toordinal()]), the time of day, and [utcoffset()], which is [None]
    for a naive value. *)
Record datetime : Type := {
  ordinal : Z;
  hour : Z;
  minute : Z;
  second : Z;
  microsecond : Z;
  utcoffset : option timedelta
}.

(** [self - other] for two datetimes.  The two values of line 81 never
    share their [tzinfo] object, so the offsets decide.  The dates of
    two datetimes are less than 3652059 days apart, and an offset is
    less than a day: the differences are in the range of [timedelta]. *)
Definition datetime_sub (self other : datetime) : result timedelta :=
  let secs1 := (second self + minute self * 60 + hour self * 3600)%Z in
  let secs2 := (second other + minute other * 60 + hour other * 3600)%Z in
  let base := timedelta_of (ordinal self - ordinal other) (secs1 - secs2)
                           (microsecond self - microsecond other) in
  match utcoffset self, utcoffset other with
  | None, None => Ret base
  | Some myoff, Some otoff =>
      if timedelta_eqb myoff otoff then Ret base
      else Ret (timedelta_sub (timedelta_add base otoff) myoff)
  | _, _ => Raise TypeError
  end.

(** [timezone.utc]: offset zero. *)
Definition utc : timedelta := timedelta_of 0 0 0.

(** ** The world outside the script *)

Record World : Type := {
  (** [os.path.expanduser] *)
  expanduser : string -> string;
  (** [os.path.isfile], [os.path.isdir], [os.path.islink] *)
  isfile : string -> bool;
  isdir : string -> bool;
  islink : string -> bool;
  (** [toml.load]: the parsed document, or the exception it raises *)
  toml_load : string -> result document;
  (** [os.environ.get] *)
  environ_get : string -> option string;
  (** [requests.post] of the query for a login with the header for a
      token, then [r.json()] and its entry [['data']['user']], which is
      [None] when GitHub knows no such login; or the exception that one
      of these steps raises *)
  post_query : toml_value -> toml_value -> result (option User);
  (** [dateutil.parser.parse] *)
  parse : string -> result datetime;
  (** the wall clock at the n-th reading, as date and time of day in UTC *)
  clock : nat -> datetime
}.

(** ** Effects: output, exit and the clock *)

Inductive stream : Type := Stdout | Stderr.

#[global] Instance stream_eq_dec : EqDecision stream.
Proof. solve_decision. Defined.

Record state : Type := {
  ticks : nat;
  output : list (stream * string)
}.

Definition M (A : Type) : Type := state -> result A * state.

Definition ret {A : Type} (a : A) : M A := fun st => (Ret a, st).

Definition bind {A B : Type} (m : M A) (k : A -> M B) : M B :=
  fun st =>
    match m st with
    | (Ret a, st') => k a st'
    | (Exit c, st') => (Exit c, st')
    | (Raise e, st') => (Raise e, st')
    end.

Definition lift {A : Type} (r : result A) : M A := fun st => (r, st).

Notation "x <- m ;; k" := (bind m (fun x => k))
  (at level 100, m at next level, right associativity).
Notation "m ;;; k" := (bind m (fun _ => k))
  (at level 100, right associativity).

(** [print(s, file=f)]: the output records the stream and the argument. *)
Definition print (f : stream) (s : string) : M unit :=
  fun st => (Ret tt, {| ticks := ticks st; output := output st ++ [(f, s)] |}).

(** [sys.exit(code)] *)
Definition sys_exit {A : Type} (code : Z) : M A := fun st => (Exit code, st).

(** [datetime.now(timezone.utc)] *)
Definition datetime_now_utc (w : World) : M datetime :=
  fun st =>
    let t := clock w (ticks st) in
    (Ret {| ordinal := ordinal t; hour := hour t; minute := minute t;
            second := second t; microsecond := microsecond t;
            utcoffset := Some utc |},
     {| ticks := S (ticks st); output := output st |}).

(** A [for] loop whose body may exit or raise. *)
Fixpoint for_each {A : Type} (l : list A) (body : A -> M unit) : M unit :=
  match l with
  | [] => ret tt
  | x :: l' => body x ;;; for_each l' body
  end.

Fixpoint enumerate_from {A : Type} (i : nat) (l : list A) : list (nat * A) :=
  match l with
  | [] => []
  | x :: l' => (i, x) :: enumerate_from (S i) l'
  end.

(** [enumerate(l)] *)
Definition enumerate {A : Type} (l : list A) : list (nat * A) := enumerate_from 0 l.

(** [c * n] for a one-character string [c]. *)
Fixpoint str_repeat (c : ascii) (n : nat) : string :=
  match n with
  | O => EmptyString
  | S n' => String c (str_repeat c n')
  end.

Definition esc : string := String (ascii_of_nat 27) EmptyString.
Definition dquote : string := String (ascii_of_nat 34) EmptyString.
Definition newline : string := String (ascii_of_nat 10) EmptyString.

Module bcolors.
Definition HEADER : string := esc +:+ "[95m".
Definition OKBLUE : string := esc +:+ "[94m".
Definition OKGREEN : string := esc +:+ "[92m".
Definition WARNING : string := esc +:+ "[93m".
Definition FAIL : string := esc +:+ "[91m".
Definition ENDC : string := esc +:+ "[0m".
Definition BOLD : string := esc +:+ "[1m".
Definition UNDERLINE : string := esc +:+ "[4m".
End bcolors.

(** ** The script *)

Section Script.

Variable w : World.

(** [get_prs_for_user] (lines 36-71): one POST per call; the query and
    the header are formatted from the two arguments. *)
Definition get_prs_for_user (username api_token : toml_value) : M (option User) :=
  lift (post_query w username api_token).

(** [get_colour_coding_for_pr] (lines 74-85) *)
Definition get_colour_coding_for_pr (pr : PullRequest) (days : Z) : M string :=
  created_at <- lift (parse w (createdAt pr));;
  now <- datetime_now_utc w;;
  age <- lift (datetime_sub now created_at);;
  let colour := bcolors.OKGREEN in
  threshold <- lift (timedelta_new days 0 0);;
  if timedelta_gtb age threshold
  then ret bcolors.FAIL
  else ret colour.

(** The default of the parameter [days]. *)
Definition default_days : Z := 14.

(** Lines 93-99. *)
Definition paths : list string :=
  [ "./.open_prs.toml";
    "./open_prs.toml";
    "~/.open_prs.toml";
    "~/.config/open_prs.toml";
    "/etc/open_prs.toml" ].

(** The loop of lines 101-104, from the value [settings] has so far. *)
Fixpoint load_candidates (candidates : list string) (settings : option document)
  : M (option document) :=
  match candidates with
  | [] => ret settings
  | path :: rest =>
      let path := expanduser w path in
      if isfile w path && negb (isdir w path) && negb (islink w path)
      then settings <- lift (toml_load w path);;
           load_candidates rest (Some settings)
      else load_candidates rest settings
  end.

Definition not_found_message : string :=
  "Could not find settings file in any of these locations: "
  +:+ String.concat ", " paths.

Definition usernames_missing_message : string :=
  "usernames definition missing in settings file: repos = ["
  +:+ dquote +:+ "bob" +:+ dquote +:+ ", " +:+ dquote +:+ "alice" +:+ dquote +:+ "]".

Definition repos_missing_message : string :=
  "repos definition missing in settings file: repos = ["
  +:+ dquote +:+ "foo/prj" +:+ dquote +:+ ", " +:+ dquote +:+ "bar/prj" +:+ dquote +:+ "]".

(** [get_settings] (lines 88-119).  [not settings] is read on the shape
    of the value: it holds of [None] and of a dict without keys.  A key
    test and the subscript that follows it are one lookup. *)
Definition get_settings : M (toml_value * toml_value * option toml_value) :=
  settings <- load_candidates paths None;;
  let not_found := print Stdout not_found_message;;; sys_exit 3 in
  match settings with
  | None => not_found
  | Some settings =>
      if bool_decide (size settings = 0) then not_found
      else
        match settings !! "usernames" with
        | None => print Stderr usernames_missing_message;;; sys_exit 2
        | Some usernames =>
            match settings !! "repos" with
            | None => print Stderr repos_missing_message;;; sys_exit 2
            | Some repos =>
                let github_token := settings !! "github_token" in
                ret (usernames, repos, github_token)
            end
        end
  end.

(** [not api_token] *)
Definition token_falsy (api_token : option toml_value) : bool :=
  match api_token with
  | None => true
  | Some v => negb (truthy v)
  end.

Definition token_missing_message : string :=
  "Please provide a Github API token via environment variable `GITHUB_TOKEN_GALAXY` or via settings file.".

(** [str(name)] inside [format]: a missing display name prints as [None]. *)
Definition format_name (name : option string) : string :=
  default "None" name.

Definition header_line (name : option string) : string :=
  bcolors.OKBLUE +:+ format_name name +:+ bcolors.ENDC.

Definition title_line (colour : string) (pr : PullRequest) : string :=
  colour +:+ title pr +:+ bcolors.ENDC.

Definition link_line (pr : PullRequest) : string :=
  "🔗 " +:+ url pr.

Definition rule (c : ascii) : string := str_repeat c 80.

(** The body of the loop of lines 144-155, for one [(i, pr)]. *)
Definition render_pr (repos : toml_value) (len : nat) (entry : nat * PullRequest) : M unit :=
  let '(i, pr) := entry in
  let repo := repository_identifier pr in
  listed <- lift (py_in repo repos);;
  if negb listed then ret tt
  else
    colour <- get_colour_coding_for_pr pr default_days;;
    print Stdout (title_line colour pr);;;
    print Stdout (link_line pr);;;
    if Nat.eqb (i + 1) len
    then print Stdout newline
    else print Stdout (rule "-").

(** The body of the loop of lines 137-155, for one [username]. *)
Definition report_user (repos api_token username : toml_value) : M unit :=
  data <- get_prs_for_user username api_token;;
  match data with
  | None => lift (Raise TypeError)
  | Some user =>
      print Stdout (header_line (name user));;;
      print Stdout (rule "=");;;
      pull_requests <- lift (filter_prs_by_repos (nodes (pullRequests user)) repos);;
      (if Nat.eqb (length pull_requests) 0
       then print Stdout "No pull requests!"
       else ret tt);;;
      for_each (enumerate pull_requests) (render_pr repos (length pull_requests))
  end.

(** The main block (lines 129-155).  The second [not api_token] is read
    on the shape of the value: [None] and falsy values leave with code 1. *)
Definition main : M unit :=
  settings <- get_settings;;
  let '(usernames, repos, api_token) := settings in
  let api_token :=
    if token_falsy api_token
    then TString <$> environ_get w "GITHUB_TOKEN_GALAXY"
    else api_token in
  let no_token := print Stderr token_missing_message;;; sys_exit 1 in
  match api_token with
  | None => no_token
  | Some token =>
      if negb (truthy token) then no_token
      else
        users <- lift (py_iter usernames);;
        for_each users (report_user repos token)
  end.

End Script.

Definition initial : state := {| ticks := 0; output := [] |}.

(** A run of the script, from no output. *)
Definition run (w : World) : result unit * state := main w initial.

(** What a state holds on one stream, in the order written. *)
Definition written (f : stream) (st : state) : list string :=
  snd <$> filter (fun e => fst e = f) (output st).

(** ** Notions the properties are stated with *)

(** A repository set, as the array of strings the settings file holds. *)
Definition repo_array (R : list string) : toml_value := TArray (TString <$> R).

(** The length of a [timedelta] in microseconds. *)
Definition total_microseconds (t : timedelta) : Z :=
  ((td_days t * 86400 + td_seconds t) * 1000000 + td_microseconds t)%Z.

(** The date and time of day of a [datetime] in microseconds, the offset
    left aside. *)
Definition wall_microseconds (d : datetime) : Z :=
  (((ordinal d * 86400 + hour d * 3600 + minute d * 60 + second d) * 1000000)
   + microsecond d)%Z.

(** The instant an aware [datetime] with offset [off] denotes. *)
Definition instant (d : datetime) (off : timedelta) : Z :=
  (wall_microseconds d - total_microseconds off)%Z.

(** The reading of the clock that [datetime.now] returns in a state. *)
Definition reading (w : World) (st : state) : datetime := clock w (ticks st).

Definition microseconds_per_day : Z := 86400 * 1000000.

(** The test of line 103 on a candidate. *)
Definition eligible (w : World) (candidate : string) : bool :=
  let path := expanduser w candidate in
  isfile w path && negb (isdir w path) && negb (islink w path).

(** The last candidate that passes the test of line 103. *)
Definition chosen (w : World) : option string :=
  last (List.filter (eligible w) paths).

(** Every candidate that passes the test parses. *)
Definition candidates_parse (w : World) : Prop :=
  forall candidate, candidate ∈ paths -> eligible w candidate = true ->
    exists d, toml_load w (expanduser w candidate) = Ret d.

(** The invariant of a [timedelta] built by its constructor. *)
Definition normalised (t : timedelta) : Prop :=
  (0 <= td_seconds t < 86400 /\ 0 <= td_microseconds t < 1000000)%Z.

(** The document a candidate parses to, when it parses. *)
Definition loaded (w : World) (candidate : string) : option document :=
  match toml_load w (expanduser w candidate) with
  | Ret d => Some d
  | _ => None
  end.

(** The document of the last eligible candidate. *)
Definition last_settings (w : World) : option document :=
  match chosen w with
  | Some candidate => loaded w candidate
  | None => None
  end.

(** A test that decides [candidates_parse]. *)
Definition candidates_parseb (w : World) : bool :=
  forallb (fun c => negb (eligible w c)
                    || match toml_load w (expanduser w c) with
                       | Ret _ => true
                       | _ => false
                       end) paths.

(** The lines that do not show a pull request. *)
Definition chrome (e : stream * string) : Prop :=
  (exists name, e = (Stdout, header_line name))
  \/ e = (Stdout, rule "=")
  \/ e = (Stdout, rule "-")
  \/ e = (Stdout, "No pull requests!")
  \/ e = (Stdout, newline)
  \/ e = (Stdout, not_found_message)
  \/ e.1 = Stderr.

(** The two lines that show a pull request: its title in one of the two
    colours of the age colouring, and its link. *)
Definition shows (e : stream * string) (pr : PullRequest) : Prop :=
  (exists colour, (colour = bcolors.OKGREEN \/ colour = bcolors.FAIL)
                  /\ e = (Stdout, title_line colour pr))
  \/ e = (Stdout, link_line pr).

(** The pull requests that some response of the endpoint holds. *)
Definition fetched (w : World) (pr : PullRequest) : Prop :=
  exists username api_token user,
    post_query w username api_token = Ret (Some user)
    /\ pr ∈ nodes (pullRequests user).

(** A line of the report is chrome, or shows a pull request taken from
    [P] whose repository is in [repos]. *)
Definition report_line (repos : toml_value) (P : PullRequest -> Prop)
    (e : stream * string) : Prop :=
  chrome e
  \/ exists pr, P pr /\ py_in (repository_identifier pr) repos = Ret true /\ shows e pr.

(** [m] only adds lines that satisfy [Q], and what it returns satisfies [R]. *)
Definition emits {A : Type} (Q : stream * string -> Prop) (R : A -> Prop) (m : M A) : Prop :=
  forall st r st', m st = (r, st') ->
    (exists new, output st' = (output st ++ new)%list /\ Forall Q new)
    /\ (forall a, r = Ret a -> R a).

(** A line of a run is chrome, or shows a fetched pull request whose
    repository is in the entry [repos] of the settings. *)
Definition run_line (w : World) (e : stream * string) : Prop :=
  chrome e
  \/ exists d repos pr,
       last_settings w = Some d /\ d !! "repos" = Some repos
       /\ fetched w pr
       /\ py_in (repository_identifier pr) repos = Ret true
       /\ shows e pr.

(** ** Example worlds *)

(** [expanduser] for a user whose home is [/home/alice]. *)
Definition expand_home (path : string) : string :=
  match path with
  | String "~" rest => "/home/alice" +:+ rest
  | _ => path
  end.

(** A world whose regular files are the keys of [files], each parsing to
    the document it is mapped to, with [token] in [GITHUB_TOKEN_GALAXY],
    an endpoint that knows the [users] by login, a parser that reads
    every creation time as [created], and a clock that stands at [now]. *)
Definition example_world (files : gmap string document) (token : option string)
    (users : gmap string User) (created now : datetime) : World :=
  {| expanduser := expand_home;
     isfile := fun path => bool_decide (is_Some (files !! path));
     isdir := fun _ => false;
     islink := fun _ => false;
     toml_load := fun path =>
       match files !! path with
       | Some d => Ret d
       | None => Raise OSError
       end;
     environ_get := fun variable =>
       if bool_decide (variable = "GITHUB_TOKEN_GALAXY") then token else None;
     post_query := fun username _ =>
       match username with
       | TString u => Ret (users !! u)
       | _ => Ret None
       end;
     parse := fun _ => Ret created;
     clock := fun _ => now |}.

Definition pr_listed : PullRequest :=
  {| repository := {| id := "R_1"; nameWithOwner := "org/repo1" |};
     createdAt := "2021-08-01T12:00:00+02:00";
     number := 7;
     title := "Fix the parser";
     url := "https://github.com/org/repo1/pull/7" |}.

Definition pr_unlisted : PullRequest :=
  {| repository := {| id := "R_2"; nameWithOwner := "org/repo2" |};
     createdAt := "2021-08-01T12:00:00+02:00";
     number := 3;
     title := "Update the manual";
     url := "https://github.com/org/repo2/pull/3" |}.

Definition user_with (display login : string) (prs : list PullRequest) : User :=
  {| name := Some display;
     login := login;
     pullRequests :=
       {| totalCount := Z.of_nat (length prs);
          nodes := prs;
          pageInfo := {| hasNextPage := false; endCursor := None |} |} |}.

Definition alice : User := user_with "Alice" "alice" [pr_listed; pr_unlisted].
Definition bob : User := user_with "Bob" "bob" [pr_unlisted].

Definition example_users : gmap string User :=
  {[ "alice" := alice; "bob" := bob ]}.

Definition settings_for (usernames : list string) : document :=
  {[ "usernames" := TArray (TString <$> usernames);
     "repos" := repo_array ["org/repo1"] ]}.

(** 1 August 2021, 12:00 at two hours east of UTC. *)
Definition example_created : datetime :=
  {| ordinal := 738003; hour := 12; minute := 0; second := 0; microsecond := 0;
     utcoffset := Some (timedelta_of 0 7200 0) |}.

(** 15 August 2021, 10:00 UTC: 14 days later to the microsecond. *)
Definition example_now : datetime :=
  {| ordinal := 738017; hour := 10; minute := 0; second := 0; microsecond := 0;
     utcoffset := None |}.

(** No settings file anywhere. *)
Definition world_without_settings : World :=
  example_world ∅ (Some "secret") example_users example_created example_now.

(** One settings file, [./.open_prs.toml], which is empty. *)
Definition world_with_empty_settings : World :=
  example_world {[ "./.open_prs.toml" := ∅ ]} (Some "secret") example_users
                example_created example_now.

(** One settings file, [/etc/open_prs.toml], with [usernames] only. *)
Definition world_without_repos : World :=
  example_world {[ "/etc/open_prs.toml" := {[ "usernames" := TArray [TString "alice"] ]} ]}
                (Some "secret") example_users example_created example_now.

(** One settings file, [/etc/open_prs.toml], with [repos] only. *)
Definition world_without_usernames : World :=
  example_world {[ "/etc/open_prs.toml" := {[ "repos" := repo_array ["org/repo1"] ]} ]}
                (Some "secret") example_users example_created example_now.

(** Two settings files: one in the home directory, one in [/etc]. *)
Definition world_with_two_settings : World :=
  example_world {[ "/home/alice/.open_prs.toml" := settings_for ["bob"];
                   "/etc/open_prs.toml" := settings_for ["alice"] ]}
                (Some "secret") example_users example_created example_now.

(** Complete settings for [alice], and no token anywhere. *)
Definition world_without_token : World :=
  example_world {[ "./open_prs.toml" := settings_for ["alice"] ]} None example_users
                example_created example_now.

(** Complete settings for [bob], whose only pull request is in a
    repository that is not configured. *)
Definition world_of_bob : World :=
  example_world {[ "./open_prs.toml" := settings_for ["bob"] ]} (Some "secret")
                example_users example_created example_now.

(** Complete settings for [alice], who has a pull request in a configured
    repository and one in another. *)
Definition world_of_alice : World :=
  example_world {[ "./open_prs.toml" := settings_for ["alice"] ]} (Some "secret")
                example_users example_created example_now.

(** ** Notions and example worlds for the further properties *)

(** The loop of lines 137-155 over the value of [usernames]. *)
Definition report_all (w : World) (usernames repos token : toml_value) : M unit :=
  users <- lift (py_iter usernames);;
  for_each users (report_user w repos token).

(** The world of [alice], with [./open_prs.toml] a symbolic link. *)
Definition world_with_linked_settings : World :=
  {| expanduser := expanduser world_of_alice;
     isfile := isfile world_of_alice;
     isdir := isdir world_of_alice;
     islink := fun path => bool_decide (path = "./open_prs.toml");
     toml_load := toml_load world_of_alice;
     environ_get := environ_get world_of_alice;
     post_query := post_query world_of_alice;
     parse := parse world_of_alice;
     clock := clock world_of_alice |}.

(** The world of [alice], with one more file, [./.open_prs.toml], that
    is not valid TOML. *)
Definition world_with_broken_settings : World :=
  {| expanduser := expanduser world_of_alice;
     isfile := fun path =>
       bool_decide (path = "./.open_prs.toml") || isfile world_of_alice path;
     isdir := isdir world_of_alice;
     islink := islink world_of_alice;
     toml_load := fun path =>
       if bool_decide (path = "./.open_prs.toml") then Raise TomlDecodeError
       else toml_load world_of_alice path;
     environ_get := environ_get world_of_alice;
     post_query := post_query world_of_alice;
     parse := parse world_of_alice;
     clock := clock world_of_alice |}.

(** The world of [alice], with a directory [/etc/open_prs.toml] on which
    [toml.load] would raise. *)
Definition world_with_settings_directory : World :=
  {| expanduser := expanduser world_of_alice;
     isfile := isfile world_of_alice;
     isdir := fun path => bool_decide (path = "/etc/open_prs.toml");
     islink := islink world_of_alice;
     toml_load := fun path =>
       if bool_decide (path = "/etc/open_prs.toml") then Raise OSError
       else toml_load world_of_alice path;
     environ_get := environ_get world_of_alice;
     post_query := post_query world_of_alice;
     parse := parse world_of_alice;
     clock := clock world_of_alice |}.

(** A world with another environment. *)
Definition with_environ (w : World) (env : string -> option string) : World :=
  {| expanduser := expanduser w;
     isfile := isfile w;
     isdir := isdir w;
     islink := islink w;
     toml_load := toml_load w;
     environ_get := env;
     post_query := post_query w;
     parse := parse w;
     clock := clock w |}.

(** Settings for [alice] that carry a token, which may be empty. *)
Definition settings_with_token (token : string) : document :=
  <[ "github_token" := TString token ]> (settings_for ["alice"]).

(** The world of [alice] with a token in the settings and another one in
    the environment. *)
Definition world_with_settings_token : World :=
  example_world {[ "./open_prs.toml" := settings_with_token "from-settings" ]}
                (Some "from-environment") example_users example_created example_now.

(** The world of [alice] with an empty token in the settings and a token
    in the environment. *)
Definition world_with_empty_token : World :=
  example_world {[ "./open_prs.toml" := settings_with_token "" ]}
                (Some "from-environment") example_users example_created example_now.

(** The world of [alice] with an empty token in the settings and an
    empty token in the environment. *)
Definition world_with_empty_tokens : World :=
  example_world {[ "./open_prs.toml" := settings_with_token "" ]}
                (Some "") example_users example_created example_now.

(** The creation time of a pull request parses to an aware datetime. *)
Definition aware (w : World) (pr : PullRequest) : Prop :=
  exists T off, parse w (createdAt pr) = Ret T /\ utcoffset T = Some off.

(** More than [days] days lie between the creation of [pr] and the
    [t]-th reading of the clock. *)
Definition stale (w : World) (days : Z) (t : nat) (pr : PullRequest) : bool :=
  match parse w (createdAt pr) with
  | Ret T =>
      match utcoffset T with
      | Some off =>
          (days * microseconds_per_day <? instant (clock w t) utc - instant T off)%Z
      | None => false
      end
  | _ => false
  end.

Definition colour_at (w : World) (t : nat) (pr : PullRequest) : string :=
  if stale w default_days t pr then bcolors.FAIL else bcolors.OKGREEN.

(** The lines of a list of pull requests when the clock has been read
    [t] times: for each one its title and its link, then a rule of [-],
    but two line ends after the last. *)
Fixpoint rows (w : World) (t : nat) (prs : list PullRequest) : list (stream * string) :=
  match prs with
  | [] => []
  | pr :: rest =>
      (Stdout, title_line (colour_at w t pr) pr)
      :: (Stdout, link_line pr)
      :: (Stdout, match rest with [] => newline | _ => rule "-" end)
      :: rows w (S t) rest
  end.

(** The same creation time, written in UTC and with the parser reading
    that string as such. *)
Definition pr_listed_utc : PullRequest :=
  {| repository := repository pr_listed;
     createdAt := "2021-08-01T10:00:00Z";
     number := number pr_listed;
     title := title pr_listed;
     url := url pr_listed |}.

Definition example_created_utc : datetime :=
  {| ordinal := 738003; hour := 10; minute := 0; second := 0; microsecond := 0;
     utcoffset := Some utc |}.

(** A world in which the parser tells the two notations apart, and the
    clock advances by one day at each reading, from 14 August 2021,
    10:00 UTC. *)
Definition world_with_clock : World :=
  {| expanduser := expanduser world_of_alice;
     isfile := isfile world_of_alice;
     isdir := isdir world_of_alice;
     islink := islink world_of_alice;
     toml_load := toml_load world_of_alice;
     environ_get := environ_get world_of_alice;
     post_query := fun _ _ =>
       Ret (Some (user_with "Alice" "alice" [pr_listed; pr_unlisted; pr_listed_utc; pr_listed]));
     parse := fun s =>
       if bool_decide (s = "2021-08-01T10:00:00Z") then Ret example_created_utc
       else if bool_decide (s = "2021-08-01T12:00:00+02:00") then Ret example_created
       else Raise ParserError;
     clock := fun n =>
       {| ordinal := 738016 + Z.of_nat n; hour := 10; minute := 0; second := 0;
          microsecond := 0; utcoffset := None |} |}.

(** A world whose parser yields a naive datetime. *)
Definition world_with_naive_parser : World :=
  example_world ∅ None ∅
    {| ordinal := 738003; hour := 12; minute := 0; second := 0; microsecond := 0;
       utcoffset := None |}
    example_now.

(** No library call leaves through [sys.exit] itself. *)
Definition libraries_do_not_exit (w : World) : Prop :=
  (forall path c, toml_load w path <> Exit c)
  /\ (forall username api_token c, post_query w username api_token <> Exit c)
  /\ (forall s c, parse w s <> Exit c).

(** [m] never leaves through [sys.exit]. *)
Definition stays {A : Type} (m : M A) : Prop :=
  forall st r st', m st = (r, st') -> forall c, r <> Exit c.

(** A world whose endpoint knows [alice] and fails for every other login. *)
Definition world_with_failing_endpoint : World :=
  {| expanduser := expanduser world_of_alice;
     isfile := isfile world_of_alice;
     isdir := isdir world_of_alice;
     islink := islink world_of_alice;
     toml_load := toml_load world_of_alice;
     environ_get := environ_get world_of_alice;
     post_query := fun username _ =>
       match username with
       | TString "alice" => Ret (Some alice)
       | _ => Raise RequestException
       end;
     parse := parse world_of_alice;
     clock := clock world_of_alice |}.

(** The state after one more line. *)
Definition wrote (st : state) (e : stream * string) : state :=
  {| ticks := ticks st; output := (output st ++ [e])%list |}.

(** * Properties *)

(** ** The repository filter *)

Section Filter.

Lemma existsb_eq_str (x : string) (R : list string) :
  existsb (eq_str x) (TString <$> R) = bool_decide (x ∈ R).
Proof.
  induction R as [|r R IH].
  - symmetry. apply bool_decide_eq_false_2, not_elem_of_nil.
  - cbn [fmap list_fmap existsb eq_str]. rewrite IH. destruct (decide (r = x)) as [->|Hne].
    + rewrite bool_decide_eq_true_2 by reflexivity. simpl.
      symmetry. apply bool_decide_eq_true. left.
    + rewrite (bool_decide_eq_false_2 (r = x)) by assumption. simpl.
      apply bool_decide_ext. rewrite elem_of_cons. intuition congruence.
Qed.

(** On an array of strings the comprehension is the list filter. *)
Lemma filter_prs_by_repos_array (P : list PullRequest) (R : list string) :
  filter_prs_by_repos P (repo_array R)
  = Ret (filter (fun pr => repository_identifier pr ∈ R) P).
Proof.
  induction P as [|pr P IH]; [reflexivity|].
  cbn [filter_prs_by_repos py_in repo_array rbind] in *.
  rewrite IH. cbn [rbind]. rewrite existsb_eq_str, filter_cons.
  destruct (decide (repository_identifier pr ∈ R)) as [Hin|Hout].
  - now rewrite bool_decide_eq_true_2.
  - now rewrite bool_decide_eq_false_2.
Qed.

(** A sublist all of whose elements pass a test is a sublist of the
    filtered list. *)
Lemma sublist_filter_greatest {A : Type} (Q : A -> Prop) `{!forall x, Decision (Q x)}
    (l k : list A) :
  l `sublist_of` k -> Forall Q l -> l `sublist_of` filter Q k.
Proof.
  induction 1 as [|x l k Hsub IH|x l k Hsub IH]; intros Hall.
  - constructor.
  - inversion Hall; subst. rewrite filter_cons_True by assumption.
    constructor. now apply IH.
  - rewrite filter_cons. destruct (decide (Q x)); [constructor|]; now apply IH.
Qed.

(** What the filter returns passes through the filter unchanged. *)
Lemma filter_prs_by_repos_fixed (repos : toml_value) (P P' : list PullRequest) :
  filter_prs_by_repos P repos = Ret P' -> filter_prs_by_repos P' repos = Ret P'.
Proof.
  revert P'. induction P as [|pr P IH]; intros P' H; simpl in H.
  - injection H as <-. reflexivity.
  - destruct (py_in (repository_identifier pr) repos) as [keep| |] eqn:Hin;
      simpl in H; try discriminate.
    destruct (filter_prs_by_repos P repos) as [kept| |] eqn:Hrest;
      simpl in H; try discriminate.
    injection H as <-. specialize (IH kept eq_refl).
    destruct keep; [|exact IH].
    simpl. rewrite Hin. simpl. rewrite IH. reflexivity.
Qed.

(** What the filter returns holds only listed pull requests. *)
Lemma filter_prs_by_repos_listed (repos : toml_value) (P P' : list PullRequest) :
  filter_prs_by_repos P repos = Ret P' ->
  forall pr, pr ∈ P' -> pr ∈ P /\ py_in (repository_identifier pr) repos = Ret true.
Proof.
  revert P'. induction P as [|pr0 P IH]; intros P' H pr Hpr; simpl in H.
  - injection H as <-. now apply elem_of_nil in Hpr.
  - destruct (py_in (repository_identifier pr0) repos) as [keep| |] eqn:Hin;
      simpl in H; try discriminate.
    destruct (filter_prs_by_repos P repos) as [kept| |] eqn:Hrest;
      simpl in H; try discriminate.
    injection H as <-. specialize (IH kept eq_refl pr).
    destruct keep.
    + apply elem_of_cons in Hpr as [->|Hpr].
      * split; [left|assumption].
      * destruct (IH Hpr). split; [now right|assumption].
    + destruct (IH Hpr). split; [now right|assumption].
Qed.

End Filter.

(** C1. For every list of pull requests [P] and every repository set
    [R], the filter returns a list [P'] that is a sublist of [P] (the
    order is kept, nothing is repeated), whose elements are exactly the
    elements of [P] with their repository identifier in [R], and that
    contains every sublist of [P] made of such elements (none of them is
    dropped): [P'] is [P] with the other elements struck out. *)
Theorem filter_prs_by_repos_exact (P : list PullRequest) (R : list string) :
  exists P',
    filter_prs_by_repos P (repo_array R) = Ret P'
    /\ P' `sublist_of` P
    /\ (forall pr, pr ∈ P' <-> pr ∈ P /\ repository_identifier pr ∈ R)
    /\ (forall l, l `sublist_of` P ->
                  Forall (fun pr => repository_identifier pr ∈ R) l ->
                  l `sublist_of` P')
    /\ P' = filter (fun pr => repository_identifier pr ∈ R) P.
Proof.
  exists (filter (fun pr => repository_identifier pr ∈ R) P).
  split; [apply filter_prs_by_repos_array|].
  split; [apply sublist_filter|].
  split; [intros pr; rewrite list_elem_of_filter; tauto|].
  split; [|reflexivity].
  intros l Hsub Hall. now apply sublist_filter_greatest.
Qed.

(** C9. Filtering the result of the filter again, with the same
    repositories, changes nothing: the composition of the filter with
    itself is the filter, for every list and every value of [repos]
    (where the membership test raises, both sides raise). *)
Theorem filter_prs_by_repos_idempotent (P : list PullRequest) (repos : toml_value) :
  rbind (filter_prs_by_repos P repos) (fun P' => filter_prs_by_repos P' repos)
  = filter_prs_by_repos P repos.
Proof.
  destruct (filter_prs_by_repos P repos) as [P'| |] eqn:H; simpl; try reflexivity.
  now apply filter_prs_by_repos_fixed in H.
Qed.

(** ** The age colouring *)

Section Age.

Local Open Scope Z_scope.

Lemma timedelta_of_normalised (d s u : Z) : normalised (timedelta_of d s u).
Proof.
  unfold normalised, timedelta_of; cbn [td_seconds td_microseconds].
  split; apply Z.mod_pos_bound; lia.
Qed.

(** Normalising moves microseconds and seconds upwards and keeps the
    length. *)
Lemma total_timedelta_of (d s u : Z) :
  total_microseconds (timedelta_of d s u) = (d * 86400 + s) * 1000000 + u.
Proof.
  unfold total_microseconds, timedelta_of;
    cbn [td_days td_seconds td_microseconds].
  pose proof (Z.div_mod u 1000000 ltac:(lia)) as Hu.
  pose proof (Z.div_mod (s + u / 1000000) 86400 ltac:(lia)) as Hs.
  lia.
Qed.

Lemma total_timedelta_add (a b : timedelta) :
  total_microseconds (timedelta_add a b)
  = total_microseconds a + total_microseconds b.
Proof.
  unfold timedelta_add. rewrite total_timedelta_of.
  unfold total_microseconds. lia.
Qed.

Lemma total_timedelta_sub (a b : timedelta) :
  total_microseconds (timedelta_sub a b)
  = total_microseconds a - total_microseconds b.
Proof.
  unfold timedelta_sub. rewrite total_timedelta_of.
  unfold total_microseconds. lia.
Qed.

Lemma timedelta_eqb_total (a b : timedelta) :
  timedelta_eqb a b = true -> total_microseconds a = total_microseconds b.
Proof.
  unfold timedelta_eqb, total_microseconds. intros H.
  apply andb_prop in H as [H Hu]. apply andb_prop in H as [Hd Hs].
  apply Z.eqb_eq in Hd, Hs, Hu. lia.
Qed.

(** On normalised values the comparison of the triples is the comparison
    of the lengths. *)
Lemma timedelta_gtb_total (a b : timedelta) :
  normalised a -> normalised b ->
  (timedelta_gtb a b = true <-> total_microseconds a > total_microseconds b).
Proof.
  unfold normalised, timedelta_gtb, total_microseconds.
  intros [Has Hau] [Hbs Hbu].
  destruct (Z.compare_spec (td_days a) (td_days b)) as [Hd|Hd|Hd].
  - destruct (Z.compare_spec (td_seconds a) (td_seconds b)) as [Hs|Hs|Hs].
    + rewrite Z.gtb_gt. lia.
    + split; [discriminate|lia].
    + split; [lia|reflexivity].
  - split; [discriminate|lia].
  - split; [lia|reflexivity].
Qed.

(** The difference of two aware datetimes is normalised and as long as
    the distance of the instants. *)
Lemma datetime_sub_aware (self other : datetime) (myoff otoff : timedelta) :
  utcoffset self = Some myoff -> utcoffset other = Some otoff ->
  exists age,
    datetime_sub self other = Ret age
    /\ normalised age
    /\ total_microseconds age = instant self myoff - instant other otoff.
Proof.
  intros Hself Hother. unfold datetime_sub. rewrite Hself, Hother.
  destruct (timedelta_eqb myoff otoff) eqn:Heq.
  - eexists. split; [reflexivity|]. split; [apply timedelta_of_normalised|].
    apply timedelta_eqb_total in Heq. rewrite total_timedelta_of.
    unfold instant, wall_microseconds. lia.
  - eexists. split; [reflexivity|]. split; [apply timedelta_of_normalised|].
    rewrite total_timedelta_sub, total_timedelta_add, total_timedelta_of.
    unfold instant, wall_microseconds. lia.
Qed.

Lemma colours_differ : bcolors.FAIL <> bcolors.OKGREEN.
Proof. discriminate. Qed.

End Age.

(** C2. Let the creation time of a pull request parse to an aware
    datetime [T] and let [N] be the reading of the clock, which is in
    UTC.  With the default of 14 days the function returns, and what it
    returns is the failure colour exactly when the instant of [N] is
    more than 14 days after the instant of [T], and the success colour
    otherwise; at exactly 14 days it is the success colour. *)
Theorem get_colour_coding_for_pr_threshold
    (w : World) (pr : PullRequest) (T : datetime) (off : timedelta) (st : state) :
  parse w (createdAt pr) = Ret T ->
  utcoffset T = Some off ->
  let N := reading w st in
  let age := (instant N utc - instant T off)%Z in
  exists colour,
    get_colour_coding_for_pr w pr default_days st
    = (Ret colour, {| ticks := S (ticks st); output := output st |})
    /\ (colour = bcolors.FAIL <-> (age > 14 * microseconds_per_day)%Z)
    /\ (colour = bcolors.OKGREEN <-> (age <= 14 * microseconds_per_day)%Z)
    /\ (age = (14 * microseconds_per_day)%Z -> colour = bcolors.OKGREEN).
Proof.
  intros Hparse Hoff N age.
  unfold get_colour_coding_for_pr, bind, lift, datetime_now_utc.
  rewrite Hparse.
  set (now := {| ordinal := _; utcoffset := Some utc |}).
  destruct (datetime_sub_aware now T utc off eq_refl Hoff)
    as (delta & Hsub & Hnorm & Htotal).
  rewrite Hsub.
  change (timedelta_new default_days 0 0) with (Ret (timedelta_of default_days 0 0)).
  cbn iota.
  assert (Hage : total_microseconds delta = age) by exact Htotal.
  pose proof (timedelta_gtb_total delta (timedelta_of default_days 0 0) Hnorm
                (timedelta_of_normalised _ _ _)) as Hgt.
  rewrite total_timedelta_of, Hage in Hgt.
  unfold default_days, microseconds_per_day in *.
  destruct (timedelta_gtb delta (timedelta_of 14 0 0)) eqn:Hcmp.
  - exists bcolors.FAIL. split; [reflexivity|].
    assert (age > 14 * (86400 * 1000000))%Z by (destruct Hgt as [Hgt _]; specialize (Hgt eq_refl); lia).
    split; [tauto|]. split; [|lia].
    split; [intros Hc; now apply colours_differ in Hc|lia].
  - exists bcolors.OKGREEN. split; [reflexivity|].
    assert (~ (age > 14 * (86400 * 1000000))%Z).
    { intros Hlt. assert (false = true) by (apply Hgt; lia). discriminate. }
    split; [|split; [split; [lia|reflexivity]|reflexivity]].
    split; [intros Hc; symmetry in Hc; now apply colours_differ in Hc|lia].
Qed.

(** ** The settings loader *)

Section Loader.

Variable w : World.

Lemma last_cons {A : Type} (x : A) (l : list A) :
  last (x :: l) = Some (default x (last l)).
Proof.
  revert x. induction l as [|y l IH]; intros x; [reflexivity|].
  change (last (x :: y :: l)) with (last (y :: l)).
  rewrite IH. simpl. destruct (last l); reflexivity.
Qed.

(** When the loop returns, it returns the document of the last eligible
    candidate, or what [settings] held when there is none; it writes
    nothing. *)
Lemma load_candidates_returns (candidates : list string) (settings r : option document)
    (st st' : state) :
  load_candidates w candidates settings st = (Ret r, st') ->
  st' = st
  /\ r = match last (List.filter (eligible w) candidates) with
         | Some candidate => loaded w candidate
         | None => settings
         end.
Proof.
  revert settings. induction candidates as [|c rest IH]; intros settings H.
  - cbn in H. injection H as <- <-. split; reflexivity.
  - cbn [load_candidates] in H. cbn [List.filter].
    fold (eligible w c) in H |- *.
    destruct (eligible w c) eqn:Hel.
    + unfold bind, lift in H.
      destruct (toml_load w (expanduser w c)) as [d| |] eqn:Hload;
        try discriminate.
      apply IH in H as [-> ->]. split; [reflexivity|].
      rewrite last_cons.
      destruct (last (List.filter (eligible w) rest)); simpl; [reflexivity|].
      unfold loaded. now rewrite Hload.
    + now apply IH in H.
Qed.

(** The loop returns when every eligible candidate parses. *)
Lemma load_candidates_total (candidates : list string) (settings : option document)
    (st : state) :
  (forall c, c ∈ candidates -> eligible w c = true ->
     exists d, toml_load w (expanduser w c) = Ret d) ->
  exists r, load_candidates w candidates settings st = (Ret r, st).
Proof.
  revert settings. induction candidates as [|c rest IH]; intros settings Hparse.
  - eexists. reflexivity.
  - cbn [load_candidates]. fold (eligible w c).
    assert (Hrest : forall c', c' ∈ rest -> eligible w c' = true ->
              exists d, toml_load w (expanduser w c') = Ret d)
      by (intros c' Hin; apply Hparse; now right).
    destruct (eligible w c) eqn:Hel.
    + destruct (Hparse c ltac:(left) Hel) as [d Hd].
      unfold bind, lift. rewrite Hd. now apply IH.
    + now apply IH.
Qed.

(** Whenever the loop over the five paths returns, it returns the
    document of the last eligible candidate. *)
Lemma load_candidates_last_settings (st : state) (r : option document) (st' : state) :
  load_candidates w paths None st = (Ret r, st') -> r = last_settings w /\ st' = st.
Proof.
  intros H. apply load_candidates_returns in H as [-> ->].
  split; [|reflexivity]. unfold last_settings, chosen.
  destruct (last (List.filter (eligible w) paths)); reflexivity.
Qed.

(** The loop raises at the first eligible candidate that does not parse. *)
Lemma load_candidates_raises (before after : list string) (c : string) (e : exn)
    (settings : option document) (st : state) :
  (forall c', c' ∈ before -> eligible w c' = true ->
     exists d, toml_load w (expanduser w c') = Ret d) ->
  eligible w c = true ->
  toml_load w (expanduser w c) = Raise e ->
  load_candidates w (before ++ c :: after) settings st = (Raise e, st).
Proof.
  intros Hbefore Hel Hraise. revert settings.
  induction before as [|b before IH]; intros settings.
  - cbn [app load_candidates]. fold (eligible w c). rewrite Hel.
    unfold bind, lift. now rewrite Hraise.
  - cbn [app load_candidates]. fold (eligible w b).
    assert (Hrest : forall c', c' ∈ before -> eligible w c' = true ->
              exists d, toml_load w (expanduser w c') = Ret d)
      by (intros c' Hin; apply Hbefore; now right).
    destruct (eligible w b) eqn:Hb; [|now apply IH].
    destruct (Hbefore b ltac:(left) Hb) as [d Hd].
    unfold bind, lift. rewrite Hd. now apply IH.
Qed.

Lemma load_candidates_paths (st : state) :
  candidates_parse w ->
  load_candidates w paths None st = (Ret (last_settings w), st).
Proof.
  intros Hparse.
  destruct (load_candidates_total paths None st Hparse) as [r Hr].
  rewrite Hr. apply load_candidates_returns in Hr as [_ ->].
  unfold last_settings, chosen.
  destruct (last (List.filter (eligible w) paths)); reflexivity.
Qed.

Lemma size_nonempty (d : document) : d <> ∅ -> bool_decide (size d = 0) = false.
Proof.
  intros Hne. apply bool_decide_eq_false_2. now rewrite map_size_empty_iff.
Qed.

(** The ways in which [get_settings] ends the run. *)
Lemma run_no_settings :
  load_candidates w paths None initial = (Ret None, initial) ->
  run w = (Exit 3, {| ticks := 0; output := [(Stdout, not_found_message)] |}).
Proof.
  intros Hload. unfold run, main, get_settings, bind. now rewrite Hload.
Qed.


Lemma run_usernames_missing (d : document) :
  load_candidates w paths None initial = (Ret (Some d), initial) ->
  d <> ∅ -> d !! "usernames" = None ->
  run w = (Exit 2, {| ticks := 0; output := [(Stderr, usernames_missing_message)] |}).
Proof.
  intros Hload Hne Hkey. unfold run, main, get_settings, bind.
  rewrite Hload, (size_nonempty d Hne), Hkey. reflexivity.
Qed.

Lemma run_repos_missing (d : document) (usernames : toml_value) :
  load_candidates w paths None initial = (Ret (Some d), initial) ->
  d <> ∅ -> d !! "usernames" = Some usernames -> d !! "repos" = None ->
  run w = (Exit 2, {| ticks := 0; output := [(Stderr, repos_missing_message)] |}).
Proof.
  intros Hload Hne Husers Hkey. unfold run, main, get_settings, bind.
  rewrite Hload, (size_nonempty d Hne), Husers, Hkey. reflexivity.
Qed.

(** No candidate is a regular file: none is eligible. *)
Lemma no_file_no_choice :
  (forall c, c ∈ paths -> isfile w (expanduser w c) = false) ->
  candidates_parse w /\ chosen w = None.
Proof.
  intros Hnone.
  assert (Hel : forall c, c ∈ paths -> eligible w c = false).
  { intros c Hc. unfold eligible. now rewrite (Hnone c Hc). }
  split.
  - intros c Hc Hyes. rewrite (Hel c Hc) in Hyes. discriminate.
  - unfold chosen.
    replace (List.filter (eligible w) paths) with (@nil string); [reflexivity|].
    symmetry. clear Hnone. induction paths as [|c l IH]; [reflexivity|].
    cbn [List.filter]. rewrite (Hel c) by left.
    apply IH. intros c' Hc'. apply Hel. now right.
Qed.

End Loader.

(** C3, as amended.  The candidates are the five paths in the order
    [./.open_prs.toml], [./open_prs.toml], [~/.open_prs.toml],
    [~/.config/open_prs.toml], [/etc/open_prs.toml], and the loop parses
    each one that is a regular file, not a directory and not a symlink.
    When all of these parse, the settings are the document parsed from
    the last of them (no settings when there is none), and the loop
    gives the same in every world whose eligible candidates parse and
    whose last eligible candidate is the same and parses to the same
    document, whatever its earlier candidates are.  When one of them
    does not parse, the loop ends with the exception of [toml.load] at
    the first such candidate, and there are no settings. *)
Theorem load_candidates_last_wins (w : World) (st : state) :
  paths = [ "./.open_prs.toml"; "./open_prs.toml"; "~/.open_prs.toml";
            "~/.config/open_prs.toml"; "/etc/open_prs.toml" ]
  /\ (candidates_parse w ->
        load_candidates w paths None st = (Ret (last_settings w), st)
        /\ forall w',
             candidates_parse w' ->
             chosen w' = chosen w ->
             (forall c, chosen w = Some c ->
                toml_load w' (expanduser w' c) = toml_load w (expanduser w c)) ->
             load_candidates w' paths None st = load_candidates w paths None st)
  /\ (forall before c after e,
        paths = (before ++ c :: after)%list ->
        (forall c', c' ∈ before -> eligible w c' = true ->
           exists d, toml_load w (expanduser w c') = Ret d) ->
        eligible w c = true ->
        toml_load w (expanduser w c) = Raise e ->
        load_candidates w paths None st = (Raise e, st)).
Proof.
  split; [reflexivity|]. split.
  - intros Hparse. split; [now apply load_candidates_paths|].
    intros w' Hparse' Hsame Hdoc.
    rewrite (load_candidates_paths w' st Hparse'), (load_candidates_paths w st Hparse).
    do 2 f_equal. unfold last_settings. rewrite Hsame.
    destruct (chosen w) as [c|]; [|reflexivity].
    unfold loaded. now rewrite (Hdoc c eq_refl).
  - intros before c after e Hpaths Hbefore Hel Hraise. rewrite Hpaths.
    now apply load_candidates_raises.
Qed.

(** C6. When none of the five candidates is a regular file, the run
    ends with exit code 3 after printing one line, which names the five
    searched paths. *)
Theorem no_settings_file_exit_3 (w : World) :
  (forall c, c ∈ paths -> isfile w (expanduser w c) = false) ->
  run w = (Exit 3, {| ticks := 0; output := [(Stdout, not_found_message)] |})
  /\ not_found_message
     = "Could not find settings file in any of these locations: ./.open_prs.toml, ./open_prs.toml, ~/.open_prs.toml, ~/.config/open_prs.toml, /etc/open_prs.toml".
Proof.
  intros Hnone. split; [|reflexivity].
  destruct (no_file_no_choice w Hnone) as [Hparse Hchosen].
  apply run_no_settings.
  rewrite (load_candidates_paths w initial Hparse).
  unfold last_settings. now rewrite Hchosen.
Qed.


(** C7, as amended.  When the document the loader settles on is not
    empty and lacks the key [usernames] or the key [repos], the run ends
    with exit code 2 after one line on the standard error stream. *)
Theorem missing_key_exit_2 (w : World) (c : string) (d : document) :
  candidates_parse w ->
  chosen w = Some c ->
  toml_load w (expanduser w c) = Ret d ->
  d <> ∅ ->
  d !! "usernames" = None \/ d !! "repos" = None ->
  exists message,
    run w = (Exit 2, {| ticks := 0; output := [(Stderr, message)] |})
    /\ (message = usernames_missing_message \/ message = repos_missing_message).
Proof.
  intros Hparse Hchosen Hload Hne Hmissing.
  assert (Hloop : load_candidates w paths None initial = (Ret (Some d), initial)).
  { rewrite (load_candidates_paths w initial Hparse).
    unfold last_settings, loaded. now rewrite Hchosen, Hload. }
  destruct (d !! "usernames") as [usernames|] eqn:Husers.
  - destruct Hmissing as [Hno|Hno]; [discriminate|].
    exists repos_missing_message. split; [|now right].
    now apply run_repos_missing with (d := d) (usernames := usernames).
  - exists usernames_missing_message. split; [|now left].
    now apply run_usernames_missing with (d := d).
Qed.

(** ** The report *)

Section Emits.

Context {A B : Type} (Q : stream * string -> Prop).

Lemma emits_ret (R : A -> Prop) (a : A) : R a -> emits Q R (ret a).
Proof.
  intros Ha st r st' H. injection H as <- <-. split.
  - exists []. now rewrite app_nil_r.
  - now intros ? [= <-].
Qed.

Lemma emits_lift (r0 : result A) : emits Q (fun a => r0 = Ret a) (lift r0).
Proof.
  intros st r st' H. injection H as <- <-. split.
  - exists []. now rewrite app_nil_r.
  - now intros a ->.
Qed.

Lemma emits_exit (R : A -> Prop) (code : Z) : emits Q R (sys_exit code).
Proof.
  intros st r st' H. injection H as <- <-. split.
  - exists []. now rewrite app_nil_r.
  - discriminate.
Qed.

Lemma emits_weaken (R R' : A -> Prop) (m : M A) :
  (forall a, R a -> R' a) -> emits Q R m -> emits Q R' m.
Proof.
  intros Himp Hm st r st' H. destruct (Hm st r st' H) as [Hout Hret].
  split; [exact Hout|]. intros a Ha. now apply Himp, Hret.
Qed.

Lemma emits_bind (R : A -> Prop) (R' : B -> Prop) (m : M A) (k : A -> M B) :
  emits Q R m -> (forall a, R a -> emits Q R' (k a)) -> emits Q R' (bind m k).
Proof.
  intros Hm Hk st r st' H. unfold bind in H.
  destruct (m st) as [[a|c|e] st1] eqn:Hmst;
    destruct (Hm st _ st1 Hmst) as [(new1 & Hout1 & Hall1) Hret].
  - destruct (Hk a (Hret a eq_refl) st1 r st' H) as [(new2 & Hout2 & Hall2) Hret2].
    split; [|exact Hret2].
    exists (new1 ++ new2)%list. rewrite Hout2, Hout1, app_assoc.
    split; [reflexivity|]. now apply Forall_app.
  - injection H as <- <-. split; [now exists new1|discriminate].
  - injection H as <- <-. split; [now exists new1|discriminate].
Qed.

End Emits.

Lemma emits_print (Q : stream * string -> Prop) (f : stream) (s : string) :
  Q (f, s) -> emits Q (fun _ => True) (print f s).
Proof.
  intros Hq st r st' H. injection H as <- <-. split; [|trivial].
  exists [(f, s)]. split; [reflexivity|]. now constructor.
Qed.

Lemma emits_now (Q : stream * string -> Prop) (w : World) :
  emits Q (fun _ => True) (datetime_now_utc w).
Proof.
  intros st r st' H. injection H as <- <-. split; [|trivial].
  exists []. cbn. now rewrite app_nil_r.
Qed.

Lemma emits_for_each {A : Type} (Q : stream * string -> Prop) (l : list A)
    (body : A -> M unit) :
  (forall x, x ∈ l -> emits Q (fun _ => True) (body x)) ->
  emits Q (fun _ => True) (for_each l body).
Proof.
  induction l as [|x l IH]; intros Hbody; cbn [for_each].
  - now apply emits_ret.
  - apply emits_bind with (R := fun _ => True).
    + apply Hbody. left.
    + intros _ _. apply IH. intros y Hy. apply Hbody. now right.
Qed.

Lemma elem_of_enumerate_from {A : Type} (l : list A) (i j : nat) (x : A) :
  (j, x) ∈ enumerate_from i l -> x ∈ l.
Proof.
  revert i. induction l as [|y l IH]; intros i H; cbn in H.
  - now apply elem_of_nil in H.
  - apply elem_of_cons in H as [[= -> ->]|H]; [left|right; eauto].
Qed.

Section Report.

Variable w : World.

(** The age colouring writes nothing and returns one of its two colours. *)
Lemma get_colour_coding_for_pr_emits (Q : stream * string -> Prop)
    (pr : PullRequest) (days : Z) :
  emits Q (fun colour => colour = bcolors.OKGREEN \/ colour = bcolors.FAIL)
        (get_colour_coding_for_pr w pr days).
Proof.
  unfold get_colour_coding_for_pr.
  eapply emits_bind; [apply emits_lift|]. intros created_at _.
  eapply emits_bind; [apply emits_now|]. intros now _.
  eapply emits_bind; [apply emits_lift|]. intros age _.
  eapply emits_bind; [apply emits_lift|]. intros threshold _.
  destruct (timedelta_gtb age threshold);
    apply emits_ret; [now right|now left].
Qed.

(** The body of the inner loop writes chrome and lines of its own pull
    request, and the latter only when the repository is listed. *)
Lemma render_pr_emits (repos : toml_value) (P : PullRequest -> Prop) (len i : nat)
    (pr : PullRequest) :
  P pr -> emits (report_line repos P) (fun _ => True) (render_pr w repos len (i, pr)).
Proof.
  intros HP. unfold render_pr.
  eapply emits_bind; [apply emits_lift|]. intros listed Hlisted.
  destruct listed; cbn [negb]; [|now apply emits_ret].
  eapply emits_bind; [apply get_colour_coding_for_pr_emits|].
  intros colour Hcolour.
  assert (Hshow : forall e, shows e pr -> report_line repos P e)
    by (intros e He; right; now exists pr).
  eapply emits_bind; [apply emits_print|]; cbn beta.
  { apply Hshow. left. now exists colour. }
  intros _ _.
  eapply emits_bind; [apply emits_print|]; cbn beta.
  { apply Hshow. now right. }
  intros _ _.
  destruct (i + 1 =? len)%nat; apply emits_print; left; unfold chrome; tauto.
Qed.

Lemma report_user_emits (repos api_token username : toml_value) :
  emits (report_line repos (fetched w)) (fun _ => True)
        (report_user w repos api_token username).
Proof.
  unfold report_user, get_prs_for_user.
  eapply emits_bind; [apply emits_lift|]. intros [user|] Hdata; cbn beta iota.
  2:{ eapply emits_weaken; [|apply emits_lift]. trivial. }
  eapply emits_bind; [apply emits_print|]; cbn beta.
  { left. left. now exists (name user). }
  intros _ _.
  eapply emits_bind; [apply emits_print|]; cbn beta.
  { left. unfold chrome. tauto. }
  intros _ _.
  eapply emits_bind; [apply emits_lift|]. intros pull_requests Hfilter.
  eapply emits_bind with (R := fun _ => True).
  { destruct (length pull_requests =? 0)%nat;
      [apply emits_print; left; unfold chrome; tauto|now apply emits_ret]. }
  intros _ _.
  apply emits_for_each. intros [i pr] Hentry.
  apply render_pr_emits.
  apply elem_of_enumerate_from in Hentry.
  destruct (filter_prs_by_repos_listed _ _ _ Hfilter pr Hentry) as [Hnode _].
  now exists username, api_token, user.
Qed.

(** The loop over the candidates leaves the state as it is. *)
Lemma load_candidates_state (candidates : list string) (settings : option document)
    (st st' : state) (r : result (option document)) :
  load_candidates w candidates settings st = (r, st') -> st' = st.
Proof.
  revert settings. induction candidates as [|c rest IH]; intros settings H.
  - now injection H as <- <-.
  - cbn [load_candidates] in H.
    destruct (isfile w (expanduser w c) && negb (isdir w (expanduser w c))
              && negb (islink w (expanduser w c))); [|now apply IH in H].
    unfold bind, lift in H.
    destruct (toml_load w (expanduser w c)); [now apply IH in H| |];
      now injection H as <- <-.
Qed.

Lemma load_candidates_emits (Q : stream * string -> Prop) :
  emits Q (fun settings => settings = last_settings w) (load_candidates w paths None).
Proof.
  intros st r st' H. pose proof (load_candidates_state _ _ _ _ _ H) as ->.
  split.
  - exists []. now rewrite app_nil_r.
  - intros settings ->.
    now destruct (load_candidates_last_settings w st settings st H).
Qed.

(** When [get_settings] returns, the repositories are the entry [repos]
    of the document of the last eligible candidate; all it writes is
    chrome. *)
Lemma get_settings_emits (Q : stream * string -> Prop) :
  (forall e, chrome e -> Q e) ->
  emits Q (fun '(_, repos, _) =>
             exists d, last_settings w = Some d /\ d !! "repos" = Some repos)
        (get_settings w).
Proof.
  intros Hchrome. unfold get_settings.
  eapply emits_bind; [apply load_candidates_emits|]. intros settings Hsettings.
  assert (Hnot_found : forall R : toml_value * toml_value * option toml_value -> Prop,
            emits Q R (print Stdout not_found_message;;; sys_exit 3)).
  { intros R. eapply emits_bind; [apply emits_print|].
    - apply Hchrome. unfold chrome. tauto.
    - intros _ _. apply emits_exit. }
  cbn zeta. destruct settings as [d|]; [|apply Hnot_found].
  destruct (bool_decide (size d = 0)); [apply Hnot_found|].
  destruct (d !! "usernames") as [usernames|].
  2:{ eapply emits_bind; [apply emits_print|].
      - apply Hchrome. unfold chrome. tauto.
      - intros _ _. apply emits_exit. }
  destruct (d !! "repos") as [repos|] eqn:Hrepos.
  2:{ eapply emits_bind; [apply emits_print|].
      - apply Hchrome. unfold chrome. tauto.
      - intros _ _. apply emits_exit. }
  apply emits_ret. now exists d.
Qed.

End Report.

Lemma emits_mono {A : Type} (Q Q' : stream * string -> Prop) (R : A -> Prop) (m : M A) :
  (forall e, Q e -> Q' e) -> emits Q R m -> emits Q' R m.
Proof.
  intros Himp Hm st r st' H.
  destruct (Hm st r st' H) as [(new & Hout & Hall) Hret].
  split; [|exact Hret]. exists new. split; [exact Hout|].
  eapply Forall_impl; eauto.
Qed.

Lemma main_emits (w : World) : emits (run_line w) (fun _ => True) (main w).
Proof.
  unfold main.
  eapply emits_bind; [apply get_settings_emits; now left|].
  intros [[usernames repos] api_token] (d & Hd & Hrepos).
  assert (Hno_token : emits (run_line w) (fun _ : unit => True)
                        (print Stderr token_missing_message;;; sys_exit 1)).
  { eapply emits_bind; [apply emits_print|].
    - left. unfold chrome. cbn. tauto.
    - intros _ _. apply emits_exit. }
  cbn zeta.
  destruct (if token_falsy api_token
            then TString <$> environ_get w "GITHUB_TOKEN_GALAXY"
            else api_token) as [token|]; [|exact Hno_token].
  destruct (negb (truthy token)); [exact Hno_token|].
  eapply emits_bind; [apply emits_lift|]. intros users _.
  apply emits_for_each. intros username _.
  eapply emits_mono; [|apply report_user_emits].
  intros e [Hchrome|(pr & Hfetched & Hin & Hshows)]; [now left|].
  right. now exists d, repos, pr.
Qed.

(** Chrome never shows a pull request. *)
Lemma chrome_not_shows (e : stream * string) (pr : PullRequest) :
  chrome e -> ~ shows e pr.
Proof.
  unfold chrome, shows, header_line, title_line, link_line.
  intros Hchrome Hshows.
  destruct Hshows as [(colour & [-> | ->] & ->)| ->];
    destruct Hchrome as [[name H]|[H|[H|[H|[H|[H|H]]]]]];
    vm_compute in H; discriminate H.
Qed.

(** C4. Every line a run writes is chrome or shows a pull request that
    was fetched and whose repository identifier is in the entry [repos]
    of the settings; chrome shows no pull request; and the body of the
    report loop writes for a pull request only when its repository
    identifier is in [repos]. *)
Theorem rendered_only_from_repos (w : World) :
  (forall e, e ∈ output (run w).2 ->
     chrome e
     \/ exists d repos pr,
          last_settings w = Some d /\ d !! "repos" = Some repos
          /\ fetched w pr
          /\ py_in (repository_identifier pr) repos = Ret true
          /\ shows e pr)
  /\ (forall e pr, chrome e -> ~ shows e pr)
  /\ (forall repos len i pr st,
        output (render_pr w repos len (i, pr) st).2 <> output st ->
        py_in (repository_identifier pr) repos = Ret true).
Proof.
  split; [|split].
  - intros e He. unfold run in He.
    destruct (main w initial) as [r st'] eqn:Hrun.
    destruct (main_emits w initial r st' Hrun) as [(new & Hout & Hall) _].
    cbn in He, Hout. rewrite Hout in He.
    rewrite Forall_forall in Hall. now apply Hall.
  - apply chrome_not_shows.
  - intros repos len i pr st Hwrites. unfold render_pr, bind, lift in Hwrites.
    destruct (py_in (repository_identifier pr) repos) as [[|]| |];
      cbn in Hwrites; congruence.
Qed.

(** C5, as amended.  For a user none of whose fetched pull requests is
    in a configured repository, the report is the header, the rule of 80
    [=] and the line [No pull requests!]: no title, no link and no rule
    of [-]. *)
Theorem no_pull_requests_report
    (w : World) (repos api_token username : toml_value) (user : User) (st : state) :
  post_query w username api_token = Ret (Some user) ->
  filter_prs_by_repos (nodes (pullRequests user)) repos = Ret [] ->
  report_user w repos api_token username st
  = (Ret tt,
     {| ticks := ticks st;
        output := (output st ++ [ (Stdout, header_line (name user));
                                  (Stdout, rule "=");
                                  (Stdout, "No pull requests!") ])%list |}).
Proof.
  intros Hpost Hfilter.
  unfold report_user, get_prs_for_user, bind, lift, print.
  rewrite Hpost, Hfilter. cbn. now rewrite <- !app_assoc.
Qed.

(** ** The properties at the example worlds *)

Lemma candidates_parseb_sound (w : World) :
  candidates_parseb w = true -> candidates_parse w.
Proof.
  unfold candidates_parseb, candidates_parse. intros Hall c Hc Hel.
  rewrite forallb_forall in Hall. apply list_elem_of_In in Hc.
  specialize (Hall c Hc). rewrite Hel in Hall. cbn in Hall.
  destruct (toml_load w (expanduser w c)) as [d| |]; [now exists d|discriminate..].
Defined.

(** At exactly 14 days the colour is the success colour. *)
Lemma get_colour_coding_for_pr_threshold_witness :
  get_colour_coding_for_pr world_of_alice pr_listed default_days initial
  = (Ret bcolors.OKGREEN, {| ticks := 1; output := [] |}).
Proof.
  destruct (get_colour_coding_for_pr_threshold world_of_alice pr_listed
              example_created (timedelta_of 0 7200 0) initial eq_refl eq_refl)
    as (colour & Hrun & _ & _ & Hat).
  rewrite Hrun, (Hat eq_refl). reflexivity.
Defined.

(** With a file in the home directory and a file in [/etc], the
    settings are those of [/etc]. *)
Lemma load_candidates_last_wins_witness :
  load_candidates world_with_two_settings paths None initial
  = (Ret (Some (settings_for ["alice"])), initial).
Proof.
  destruct (load_candidates_last_wins world_with_two_settings initial)
    as (_ & Hloop & _).
  destruct Hloop as [Hloop _]; [apply candidates_parseb_sound; reflexivity|].
  rewrite Hloop. reflexivity.
Defined.

(** C3, as stated, fails when an earlier candidate does not parse.  The
    world of [alice] and the world with one more file,
    [./.open_prs.toml], that is not valid TOML have the same last
    eligible candidate, [./open_prs.toml], with the same document; in
    the first the loop returns that document, in the second it raises
    at the earlier file and the run ends without settings. *)
Lemma load_candidates_earlier_file_raises :
  chosen world_of_alice = Some "./open_prs.toml"
  /\ chosen world_with_broken_settings = Some "./open_prs.toml"
  /\ toml_load world_with_broken_settings
       (expanduser world_with_broken_settings "./open_prs.toml")
     = Ret (settings_for ["alice"])
  /\ load_candidates world_of_alice paths None initial
     = (Ret (Some (settings_for ["alice"])), initial)
  /\ load_candidates world_with_broken_settings paths None initial
     = (Raise TomlDecodeError, initial)
  /\ run world_with_broken_settings = (Raise TomlDecodeError, initial).
Proof. repeat split; reflexivity. Qed.

Lemma no_settings_file_exit_3_witness :
  run world_without_settings
  = (Exit 3, {| ticks := 0; output := [(Stdout, not_found_message)] |}).
Proof.
  refine (proj1 (no_settings_file_exit_3 world_without_settings _)).
  intros c _. reflexivity.
Defined.


Lemma missing_key_exit_2_witness :
  exists message,
    run world_without_repos
    = (Exit 2, {| ticks := 0; output := [(Stderr, message)] |})
    /\ (message = usernames_missing_message \/ message = repos_missing_message).
Proof.
  apply (missing_key_exit_2 world_without_repos "/etc/open_prs.toml"
           {[ "usernames" := TArray [TString "alice"] ]}).
  - apply candidates_parseb_sound. reflexivity.
  - reflexivity.
  - reflexivity.
  - apply map_non_empty_singleton.
  - right. reflexivity.
Defined.

(** C7, as stated, fails on an empty settings file: the document lacks
    both keys, and the run ends with exit code 3, not 2. *)
Lemma missing_key_exit_3_when_empty :
  candidates_parse world_with_empty_settings
  /\ chosen world_with_empty_settings = Some "./.open_prs.toml"
  /\ toml_load world_with_empty_settings
       (expanduser world_with_empty_settings "./.open_prs.toml") = Ret ∅
  /\ (∅ : document) !! "usernames" = None
  /\ (run world_with_empty_settings).1 = Exit 3
  /\ (run world_with_empty_settings).1 <> Exit 2.
Proof.
  split; [apply candidates_parseb_sound; reflexivity|].
  repeat split; try reflexivity. vm_compute. discriminate.
Qed.

Lemma no_pull_requests_report_witness :
  report_user world_of_bob (repo_array ["org/repo1"]) (TString "secret")
              (TString "bob") initial
  = (Ret tt,
     {| ticks := 0;
        output := [ (Stdout, header_line (Some "Bob"));
                    (Stdout, rule "=");
                    (Stdout, "No pull requests!") ] |}).
Proof.
  apply (no_pull_requests_report world_of_bob (repo_array ["org/repo1"])
           (TString "secret") (TString "bob") bob initial); reflexivity.
Defined.

(** C5, as stated, fails for [bob], none of whose pull requests is in a
    configured repository: the report holds the rule of 80 [=], and its
    message is [No pull requests!], not [no pull requests]. *)
Lemma no_pull_requests_report_has_rule :
  filter_prs_by_repos (nodes (pullRequests bob)) (repo_array ["org/repo1"]) = Ret []
  /\ written Stdout (run world_of_bob).2
     = [ header_line (Some "Bob"); rule "="; "No pull requests!" ]
  /\ rule "=" ∈ written Stdout (run world_of_bob).2
  /\ "no pull requests" ∉ written Stdout (run world_of_bob).2.
Proof.
  assert (Hout : written Stdout (run world_of_bob).2
                 = [ header_line (Some "Bob"); rule "="; "No pull requests!" ])
    by reflexivity.
  split; [reflexivity|]. split; [exact Hout|]. rewrite Hout. split.
  - right. left.
  - intros Hin. repeat (apply elem_of_cons in Hin as [Hin|Hin]; [discriminate Hin|]).
    now apply elem_of_nil in Hin.
Qed.

(** C8. Without any settings file the diagnostic is written to the
    standard output and nothing to the standard error stream, whereas
    the three other fatal failures write theirs to the standard error
    stream. *)
Theorem not_found_written_to_stdout :
  run world_without_settings
  = (Exit 3, {| ticks := 0; output := [(Stdout, not_found_message)] |})
  /\ written Stderr (run world_without_settings).2 = []
  /\ run world_without_usernames
     = (Exit 2, {| ticks := 0; output := [(Stderr, usernames_missing_message)] |})
  /\ run world_without_repos
     = (Exit 2, {| ticks := 0; output := [(Stderr, repos_missing_message)] |})
  /\ run world_without_token
     = (Exit 1, {| ticks := 0; output := [(Stderr, token_missing_message)] |}).
Proof. repeat split; reflexivity. Qed.

(** ** Sample runs *)

Example filter_prs_by_repos_sample :
  filter_prs_by_repos [pr_listed; pr_unlisted; pr_listed] (repo_array ["org/repo1"])
  = Ret [pr_listed; pr_listed].
Proof. reflexivity. Qed.

Example filter_prs_by_repos_not_a_container :
  filter_prs_by_repos [pr_listed] (TInteger 3) = Raise TypeError
  /\ filter_prs_by_repos [] (TInteger 3) = Ret [].
Proof. split; reflexivity. Qed.

Example run_of_alice :
  run world_of_alice
  = (Ret tt,
     {| ticks := 1;
        output := [ (Stdout, header_line (Some "Alice"));
                    (Stdout, rule "=");
                    (Stdout, title_line bcolors.OKGREEN pr_listed);
                    (Stdout, link_line pr_listed);
                    (Stdout, newline) ] |}).
Proof. reflexivity. Qed.

Example run_with_two_settings :
  chosen world_with_two_settings = Some "/etc/open_prs.toml"
  /\ run world_with_two_settings = run world_of_alice.
Proof. split; reflexivity. Qed.

(** One microsecond past 14 days the colour is the failure colour. *)
Example colour_just_past_threshold :
  let late := {| ordinal := 738017; hour := 10; minute := 0; second := 0;
                 microsecond := 1; utcoffset := None |} in
  (get_colour_coding_for_pr
     (example_world ∅ None ∅ example_created late) pr_listed default_days initial).1
  = Ret bcolors.FAIL.
Proof. reflexivity. Qed.

(** A naive creation time cannot be subtracted from the aware [now]. *)
Example colour_of_naive_creation_time :
  let naive := {| ordinal := 738003; hour := 12; minute := 0; second := 0;
                  microsecond := 0; utcoffset := None |} in
  (get_colour_coding_for_pr
     (example_world ∅ None ∅ naive example_now) pr_listed default_days initial).1
  = Raise TypeError.
Proof. reflexivity. Qed.

(** * Further properties *)

(** ** The settings loader, continued *)

Section LoaderMore.

Variable w : World.

Lemma none_eligible_no_choice :
  (forall c, c ∈ paths -> eligible w c = false) ->
  candidates_parse w /\ chosen w = None.
Proof.
  intros Hel. split.
  - intros c Hc Hyes. rewrite (Hel c Hc) in Hyes. discriminate.
  - unfold chosen.
    replace (List.filter (eligible w) paths) with (@nil string); [reflexivity|].
    symmetry. induction paths as [|c l IH]; [reflexivity|].
    cbn [List.filter]. rewrite (Hel c) by left.
    apply IH. intros c' Hc'. apply Hel. now right.
Qed.

(** The loop reads the world through [expanduser], the test of line 103
    and [toml.load] at the candidates that pass the test. *)
Lemma load_candidates_agree (w' : World) (candidates : list string)
    (settings : option document) (st : state) :
  (forall c, c ∈ candidates -> expanduser w' c = expanduser w c) ->
  (forall c, c ∈ candidates -> eligible w' c = eligible w c) ->
  (forall c, c ∈ candidates -> eligible w c = true ->
     toml_load w' (expanduser w c) = toml_load w (expanduser w c)) ->
  load_candidates w' candidates settings st = load_candidates w candidates settings st.
Proof.
  revert settings st. induction candidates as [|c rest IH]; intros settings st Hx Hel Hload;
    [reflexivity|].
  cbn [load_candidates]. fold (eligible w c) (eligible w' c).
  assert (IH' : forall s st0, load_candidates w' rest s st0 = load_candidates w rest s st0).
  { intros s st0. apply IH; intros c' Hc'; [apply Hx|apply Hel|apply Hload]; now right. }
  rewrite (Hel c) by left. destruct (eligible w c) eqn:Hc; [|apply IH'].
  rewrite (Hx c) by left. rewrite (Hload c) by (left || assumption).
  unfold bind, lift. destruct (toml_load w (expanduser w c)); [apply IH'|reflexivity..].
Qed.

End LoaderMore.

(** X1. A settings file that is a symbolic link or a directory is not
    read: when every candidate that is a regular file is also a link or
    a directory, the run ends as without any settings file, with the
    not-found line and exit code 3. *)
Theorem linked_settings_ignored (w : World) :
  (forall c, c ∈ paths -> isfile w (expanduser w c) = true ->
     islink w (expanduser w c) = true \/ isdir w (expanduser w c) = true) ->
  run w = (Exit 3, {| ticks := 0; output := [(Stdout, not_found_message)] |}).
Proof.
  intros Hlinks.
  destruct (none_eligible_no_choice w) as [Hparse Hchosen].
  { intros c Hc. unfold eligible.
    destruct (isfile w (expanduser w c)) eqn:Hfile; [|reflexivity].
    destruct (Hlinks c Hc Hfile) as [-> | ->]; cbn; [apply andb_false_r|reflexivity]. }
  apply run_no_settings.
  rewrite (load_candidates_paths w initial Hparse).
  unfold last_settings. now rewrite Hchosen.
Qed.

Lemma linked_settings_ignored_witness :
  run world_with_linked_settings
  = (Exit 3, {| ticks := 0; output := [(Stdout, not_found_message)] |}).
Proof.
  apply (linked_settings_ignored world_with_linked_settings).
  intros c Hc Hfile.
  repeat (apply elem_of_cons in Hc as [->|Hc]; [vm_compute in Hfile |- *; try discriminate; now left|]).
  now apply elem_of_nil in Hc.
Defined.

(** X2. An eligible candidate that does not parse ends the run with the
    exception of [toml.load], before anything is written, whatever the
    candidates after it are; the candidates before it must parse. *)
Theorem broken_settings_raise (w : World) (before after : list string)
    (c : string) (e : exn) :
  paths = (before ++ c :: after)%list ->
  (forall c', c' ∈ before -> eligible w c' = true ->
     exists d, toml_load w (expanduser w c') = Ret d) ->
  eligible w c = true ->
  toml_load w (expanduser w c) = Raise e ->
  run w = (Raise e, initial).
Proof.
  intros Hpaths Hbefore Hel Hraise.
  unfold run, main, get_settings, bind. rewrite Hpaths.
  now rewrite (load_candidates_raises w before after c e None initial Hbefore Hel Hraise).
Qed.

Lemma broken_settings_raise_witness :
  run world_with_broken_settings = (Raise TomlDecodeError, initial).
Proof.
  apply (broken_settings_raise world_with_broken_settings []
           [ "./open_prs.toml"; "~/.open_prs.toml"; "~/.config/open_prs.toml";
             "/etc/open_prs.toml" ] "./.open_prs.toml" TomlDecodeError).
  - reflexivity.
  - intros c' Hc'. now apply elem_of_nil in Hc'.
  - reflexivity.
  - reflexivity.
Defined.

(** X3. [get_settings] reads the world only through [expanduser], the
    test of line 103 and [toml.load] at the candidates that pass the
    test: two worlds that agree on these give the same outcome, so a
    path that fails the test is never parsed. *)
Theorem get_settings_reads_eligible_only (w w' : World) (st : state) :
  (forall c, c ∈ paths -> expanduser w' c = expanduser w c) ->
  (forall c, c ∈ paths -> eligible w' c = eligible w c) ->
  (forall c, c ∈ paths -> eligible w c = true ->
     toml_load w' (expanduser w c) = toml_load w (expanduser w c)) ->
  get_settings w' st = get_settings w st.
Proof.
  intros Hx Hel Hload. unfold get_settings, bind.
  now rewrite (load_candidates_agree w w' paths None st Hx Hel Hload).
Qed.

Lemma get_settings_reads_eligible_only_witness :
  get_settings world_with_settings_directory initial
  = get_settings world_of_alice initial.
Proof.
  apply (get_settings_reads_eligible_only world_of_alice world_with_settings_directory).
  - intros c _. reflexivity.
  - intros c Hc.
    repeat (apply elem_of_cons in Hc as [->|Hc]; [reflexivity|]).
    now apply elem_of_nil in Hc.
  - intros c Hc Hel.
    repeat (apply elem_of_cons in Hc as [->|Hc]; [vm_compute in Hel |- *; try discriminate; reflexivity|]).
    now apply elem_of_nil in Hc.
Defined.

Section SettingsMore.

Variable w : World.

Lemma lookup_nonempty (d : document) (k : string) (v : toml_value) :
  d !! k = Some v -> d <> ∅.
Proof. intros Hk ->. now rewrite lookup_empty in Hk. Qed.

(** [get_settings] on a document with both keys. *)
Lemma get_settings_complete (d : document) (usernames repos : toml_value) (st : state) :
  candidates_parse w ->
  last_settings w = Some d ->
  d !! "usernames" = Some usernames ->
  d !! "repos" = Some repos ->
  get_settings w st = (Ret (usernames, repos, d !! "github_token"), st).
Proof.
  intros Hparse Hd Husers Hrepos. unfold get_settings, bind.
  rewrite (load_candidates_paths w st Hparse), Hd.
  rewrite (size_nonempty d (lookup_nonempty d _ _ Husers)), Husers, Hrepos.
  reflexivity.
Qed.

(** The run after [get_settings] has returned: the resolution of the
    token and the report loop. *)
Lemma run_complete (d : document) (usernames repos : toml_value) :
  candidates_parse w ->
  last_settings w = Some d ->
  d !! "usernames" = Some usernames ->
  d !! "repos" = Some repos ->
  run w
  = match (if token_falsy (d !! "github_token")
           then TString <$> environ_get w "GITHUB_TOKEN_GALAXY"
           else d !! "github_token") with
    | None => (Exit 1, {| ticks := 0; output := [(Stderr, token_missing_message)] |})
    | Some token =>
        if negb (truthy token)
        then (Exit 1, {| ticks := 0; output := [(Stderr, token_missing_message)] |})
        else report_all w usernames repos token initial
    end.
Proof.
  intros Hparse Hd Husers Hrepos. unfold run, main.
  unfold bind at 1.
  rewrite (get_settings_complete d usernames repos initial Hparse Hd Husers Hrepos).
  cbn zeta beta iota.
  destruct (if token_falsy (d !! "github_token")
            then TString <$> environ_get w "GITHUB_TOKEN_GALAXY"
            else d !! "github_token") as [token|]; [|reflexivity].
  destruct (negb (truthy token)); reflexivity.
Qed.

End SettingsMore.

(** X4. [get_settings] returns exactly when the document of the last
    eligible candidate has the keys [usernames] and [repos]; it then
    returns their two values and the value of [github_token], or [None]
    without that key, and leaves the output as it was.  The eligible
    candidates are taken to parse. *)
Theorem get_settings_returns_iff (w : World) (st st' : state)
    (usernames repos : toml_value) (github_token : option toml_value) :
  candidates_parse w ->
  (get_settings w st = (Ret (usernames, repos, github_token), st')
   <-> st' = st
       /\ exists d, last_settings w = Some d
                    /\ d !! "usernames" = Some usernames
                    /\ d !! "repos" = Some repos
                    /\ d !! "github_token" = github_token).
Proof.
  intros Hparse. split.
  - unfold get_settings, bind.
    rewrite (load_candidates_paths w st Hparse).
    destruct (last_settings w) as [d|]; [|discriminate].
    destruct (bool_decide (size d = 0)); [discriminate|].
    destruct (d !! "usernames") as [u|] eqn:Husers; [|discriminate].
    destruct (d !! "repos") as [r|] eqn:Hrepos; [|discriminate].
    intros [= <- <- <- <-]. split; [reflexivity|]. now exists d.
  - intros (-> & d & Hd & Husers & Hrepos & <-).
    now apply get_settings_complete.
Qed.

Lemma get_settings_returns_iff_witness :
  get_settings world_with_settings_token initial
  = (Ret (TArray [TString "alice"], repo_array ["org/repo1"],
          Some (TString "from-settings")), initial).
Proof.
  apply (get_settings_returns_iff world_with_settings_token).
  - apply candidates_parseb_sound. reflexivity.
  - split; [reflexivity|].
    exists (settings_with_token "from-settings"). repeat split; reflexivity.
Defined.

(** X5. With complete settings, no truthy [github_token] among them and
    no non-empty [GITHUB_TOKEN_GALAXY] in the environment, the run ends
    with exit code 1 after one line on the standard error stream, before
    any request. *)
Theorem no_token_exit_1 (w : World) (d : document) (usernames repos : toml_value) :
  candidates_parse w ->
  last_settings w = Some d ->
  d !! "usernames" = Some usernames ->
  d !! "repos" = Some repos ->
  token_falsy (d !! "github_token") = true ->
  environ_get w "GITHUB_TOKEN_GALAXY" = None
  \/ environ_get w "GITHUB_TOKEN_GALAXY" = Some "" ->
  run w = (Exit 1, {| ticks := 0; output := [(Stderr, token_missing_message)] |}).
Proof.
  intros Hparse Hd Husers Hrepos Hfalsy Henv.
  rewrite (run_complete w d usernames repos Hparse Hd Husers Hrepos), Hfalsy.
  destruct Henv as [-> | ->]; reflexivity.
Qed.

Lemma no_token_exit_1_witness :
  run world_with_empty_tokens
  = (Exit 1, {| ticks := 0; output := [(Stderr, token_missing_message)] |}).
Proof.
  apply (no_token_exit_1 world_with_empty_tokens (settings_with_token "")
           (TArray [TString "alice"]) (repo_array ["org/repo1"])).
  - apply candidates_parseb_sound. reflexivity.
  - reflexivity.
  - reflexivity.
  - reflexivity.
  - reflexivity.
  - right. reflexivity.
Defined.

(** X6. A truthy [github_token] of the settings is the token of every
    request, whatever the environment holds: the run is the report loop
    with that token. *)
Theorem settings_token_wins (w : World) (d : document)
    (usernames repos token : toml_value) (env : string -> option string) :
  candidates_parse w ->
  last_settings w = Some d ->
  d !! "usernames" = Some usernames ->
  d !! "repos" = Some repos ->
  d !! "github_token" = Some token ->
  truthy token = true ->
  run (with_environ w env) = report_all w usernames repos token initial.
Proof.
  intros Hparse Hd Husers Hrepos Htoken Htruthy.
  rewrite (run_complete (with_environ w env) d usernames repos Hparse Hd Husers Hrepos).
  rewrite Htoken. cbn [token_falsy]. rewrite Htruthy. cbn [negb]. rewrite Htruthy.
  reflexivity.
Qed.

Lemma settings_token_wins_witness :
  run (with_environ world_with_settings_token (fun _ => Some "another"))
  = report_all world_with_settings_token (TArray [TString "alice"])
               (repo_array ["org/repo1"]) (TString "from-settings") initial.
Proof.
  apply (settings_token_wins world_with_settings_token
           (settings_with_token "from-settings")).
  - apply candidates_parseb_sound. reflexivity.
  - reflexivity.
  - reflexivity.
  - reflexivity.
  - reflexivity.
  - reflexivity.
Defined.

(** X7. Without a truthy [github_token] in the settings (the key is
    missing, or its value is falsy, as the empty string is), a non-empty
    [GITHUB_TOKEN_GALAXY] of the environment is the token of every
    request. *)
Theorem environment_token_fallback (w : World) (d : document)
    (usernames repos : toml_value) (token : string) :
  candidates_parse w ->
  last_settings w = Some d ->
  d !! "usernames" = Some usernames ->
  d !! "repos" = Some repos ->
  token_falsy (d !! "github_token") = true ->
  environ_get w "GITHUB_TOKEN_GALAXY" = Some token ->
  token <> "" ->
  run w = report_all w usernames repos (TString token) initial.
Proof.
  intros Hparse Hd Husers Hrepos Hfalsy Henv Hne.
  rewrite (run_complete w d usernames repos Hparse Hd Husers Hrepos), Hfalsy, Henv.
  cbn [fmap option_fmap option_map truthy].
  now rewrite (bool_decide_eq_false_2 (token = "")).
Qed.

Lemma environment_token_fallback_witness :
  run world_with_empty_token
  = report_all world_with_empty_token (TArray [TString "alice"])
               (repo_array ["org/repo1"]) (TString "from-environment") initial.
Proof.
  apply (environment_token_fallback world_with_empty_token (settings_with_token "")).
  - apply candidates_parseb_sound. reflexivity.
  - reflexivity.
  - reflexivity.
  - reflexivity.
  - reflexivity.
  - reflexivity.
  - discriminate.
Defined.

(** ** The age colouring, continued *)

Section AgeMore.

Variable w : World.

(** The call of line 83: the threshold, or [OverflowError]. *)
Lemma timedelta_new_days (days : Z) :
  timedelta_new days 0 0
  = if (Z.abs days >? max_delta_days)%Z then Raise OverflowError
    else Ret (timedelta_of days 0 0).
Proof.
  unfold timedelta_new, timedelta_of. cbn [td_days].
  change ((0 + 0 / 1000000) / 86400)%Z with 0%Z. now rewrite Z.add_0_r.
Qed.

(** The colouring of an aware creation time, for every threshold. *)
Lemma colour_coding_aware (pr : PullRequest) (T : datetime) (off : timedelta)
    (days : Z) (st : state) :
  parse w (createdAt pr) = Ret T ->
  utcoffset T = Some off ->
  get_colour_coding_for_pr w pr days st
  = (if (Z.abs days >? max_delta_days)%Z then Raise OverflowError
     else Ret (if (days * microseconds_per_day
                   <? instant (reading w st) utc - instant T off)%Z
               then bcolors.FAIL else bcolors.OKGREEN),
     {| ticks := S (ticks st); output := output st |}).
Proof.
  intros Hparse Hoff.
  unfold get_colour_coding_for_pr, bind, lift, datetime_now_utc.
  rewrite Hparse.
  set (now := {| ordinal := _; utcoffset := Some utc |}).
  destruct (datetime_sub_aware now T utc off eq_refl Hoff)
    as (delta & Hsub & Hnorm & Htotal).
  rewrite Hsub, timedelta_new_days.
  destruct (Z.abs days >? max_delta_days)%Z; [reflexivity|].
  change (instant now utc) with (instant (reading w st) utc) in Htotal.
  pose proof (timedelta_gtb_total delta (timedelta_of days 0 0) Hnorm
                (timedelta_of_normalised _ _ _)) as Hgt.
  rewrite total_timedelta_of, Htotal in Hgt.
  unfold microseconds_per_day.
  destruct (timedelta_gtb delta (timedelta_of days 0 0)) eqn:Hcmp.
  - destruct Hgt as [Hgt _]. specialize (Hgt eq_refl).
    replace (_ <? _)%Z with true; [reflexivity|].
    symmetry. apply Z.ltb_lt. lia.
  - replace (_ <? _)%Z with false; [reflexivity|].
    symmetry. apply Z.ltb_ge.
    destruct (Z_le_gt_dec (instant (reading w st) utc - instant T off)
                          (days * (86400 * 1000000))) as [Hle|Hgt']; [exact Hle|].
    destruct Hgt as [_ Hgt]. assert (false = true) by (apply Hgt; lia). discriminate.
Qed.

Lemma colour_coding_colour_at (pr : PullRequest) (st : state) :
  aware w pr ->
  get_colour_coding_for_pr w pr default_days st
  = (Ret (colour_at w (ticks st) pr), {| ticks := S (ticks st); output := output st |}).
Proof.
  intros (T & off & Hparse & Hoff).
  rewrite (colour_coding_aware pr T off default_days st Hparse Hoff).
  unfold colour_at, stale, reading. now rewrite Hparse, Hoff.
Qed.

End AgeMore.

(** X8. For every threshold [days] in the range of [timedelta], also
    another than the default, the colour of an aware creation time is
    the failure colour exactly when the instant of the reading of the
    clock is more than [days] days after the instant of the creation,
    and the success colour otherwise.  For a threshold of more than
    999999999 days, or less than the opposite, the call of line 83
    raises [OverflowError], after the clock has been read. *)
Theorem get_colour_coding_for_pr_days
    (w : World) (pr : PullRequest) (T : datetime) (off : timedelta) (days : Z)
    (st : state) :
  parse w (createdAt pr) = Ret T ->
  utcoffset T = Some off ->
  let age := (instant (reading w st) utc - instant T off)%Z in
  ((Z.abs days <= max_delta_days)%Z ->
     exists colour,
       get_colour_coding_for_pr w pr days st
       = (Ret colour, {| ticks := S (ticks st); output := output st |})
       /\ (colour = bcolors.FAIL <-> (age > days * microseconds_per_day)%Z)
       /\ (colour = bcolors.OKGREEN <-> (age <= days * microseconds_per_day)%Z))
  /\ ((Z.abs days > max_delta_days)%Z ->
        get_colour_coding_for_pr w pr days st
        = (Raise OverflowError, {| ticks := S (ticks st); output := output st |})).
Proof.
  intros Hparse Hoff age.
  rewrite (colour_coding_aware w pr T off days st Hparse Hoff). fold age.
  split.
  - intros Hrange. replace (Z.abs days >? max_delta_days)%Z with false
      by (symmetry; rewrite Z.gtb_ltb; apply Z.ltb_ge; exact Hrange).
    destruct (days * microseconds_per_day <? age)%Z eqn:Hcmp.
    + apply Z.ltb_lt in Hcmp. exists bcolors.FAIL. split; [reflexivity|].
      split; [split; [lia|reflexivity]|].
      split; [intros Hc; now apply colours_differ in Hc|lia].
    + apply Z.ltb_ge in Hcmp. exists bcolors.OKGREEN. split; [reflexivity|].
      split; [|split; [lia|reflexivity]].
      split; [intros Hc; symmetry in Hc; now apply colours_differ in Hc|lia].
  - intros Hrange. replace (Z.abs days >? max_delta_days)%Z with true; [reflexivity|].
    symmetry. rewrite Z.gtb_ltb. apply Z.ltb_lt. lia.
Qed.

(** With a threshold of 13 days, 14 days are stale. *)
Lemma get_colour_coding_for_pr_days_witness :
  get_colour_coding_for_pr world_of_alice pr_listed 13 initial
  = (Ret bcolors.FAIL, {| ticks := 1; output := [] |}).
Proof.
  destruct (get_colour_coding_for_pr_days world_of_alice pr_listed
              example_created (timedelta_of 0 7200 0) 13 initial eq_refl eq_refl)
    as [Hin _].
  destruct Hin as (colour & Hrun & [_ Hfail] & _); [vm_compute; discriminate|].
  rewrite Hrun, (Hfail eq_refl). reflexivity.
Defined.

(** X9. The colour depends on the instant of the creation only, not on
    the offset it is written with: two creation times that denote the
    same instant get the same colour. *)
Theorem colour_of_same_instant
    (w : World) (pr1 pr2 : PullRequest) (T1 T2 : datetime) (off1 off2 : timedelta)
    (days : Z) (st : state) :
  parse w (createdAt pr1) = Ret T1 -> utcoffset T1 = Some off1 ->
  parse w (createdAt pr2) = Ret T2 -> utcoffset T2 = Some off2 ->
  instant T1 off1 = instant T2 off2 ->
  get_colour_coding_for_pr w pr1 days st = get_colour_coding_for_pr w pr2 days st.
Proof.
  intros Hp1 Ho1 Hp2 Ho2 Hsame.
  rewrite (colour_coding_aware w pr1 T1 off1 days st Hp1 Ho1).
  rewrite (colour_coding_aware w pr2 T2 off2 days st Hp2 Ho2).
  now rewrite Hsame.
Qed.

Lemma colour_of_same_instant_witness :
  get_colour_coding_for_pr world_with_clock pr_listed default_days initial
  = get_colour_coding_for_pr world_with_clock pr_listed_utc default_days initial.
Proof.
  apply (colour_of_same_instant world_with_clock pr_listed pr_listed_utc
           example_created example_created_utc (timedelta_of 0 7200 0) utc);
    reflexivity.
Defined.

(** X10. Staleness only grows with time and with a smaller threshold: a
    pull request that is coloured as a failure stays so at every later
    reading of the clock and for every threshold that is not larger and
    still in the range of [timedelta]. *)
Theorem stale_stays_stale
    (w : World) (pr : PullRequest) (days days' : Z) (st st' : state) :
  aware w pr ->
  (- max_delta_days <= days')%Z ->
  (days' <= days)%Z ->
  (wall_microseconds (reading w st) <= wall_microseconds (reading w st'))%Z ->
  (get_colour_coding_for_pr w pr days st).1 = Ret bcolors.FAIL ->
  (get_colour_coding_for_pr w pr days' st').1 = Ret bcolors.FAIL.
Proof.
  intros (T & off & Hparse & Hoff) Hlow Hdays Hlater.
  rewrite (colour_coding_aware w pr T off days st Hparse Hoff).
  rewrite (colour_coding_aware w pr T off days' st' Hparse Hoff).
  cbn [fst]. unfold instant, microseconds_per_day.
  destruct (Z.abs days >? max_delta_days)%Z eqn:Hrange; [discriminate|].
  rewrite Z.gtb_ltb in Hrange. apply Z.ltb_ge in Hrange.
  replace (Z.abs days' >? max_delta_days)%Z with false
    by (symmetry; rewrite Z.gtb_ltb; apply Z.ltb_ge; unfold max_delta_days in *; lia).
  destruct (_ <? _)%Z eqn:Hcmp.
  - intros _. apply Z.ltb_lt in Hcmp.
    replace (_ <? _)%Z with true; [reflexivity|]. symmetry. apply Z.ltb_lt. lia.
  - intros Hc. exfalso. apply colours_differ. congruence.
Qed.

(** Stale at the third reading of a clock that advances by a day, stale
    at the fourth. *)
Lemma stale_stays_stale_witness :
  (get_colour_coding_for_pr world_with_clock pr_listed default_days
     {| ticks := 3; output := [] |}).1 = Ret bcolors.FAIL.
Proof.
  apply (stale_stays_stale world_with_clock pr_listed default_days default_days
           {| ticks := 2; output := [] |}).
  - exists example_created, (timedelta_of 0 7200 0). split; reflexivity.
  - vm_compute. discriminate.
  - reflexivity.
  - vm_compute. discriminate.
  - reflexivity.
Defined.

(** X11. A creation time that parses to a naive datetime has no colour:
    the subtraction from the aware reading of the clock raises
    [TypeError], after the clock has been read. *)
Theorem naive_creation_time_raises
    (w : World) (pr : PullRequest) (T : datetime) (days : Z) (st : state) :
  parse w (createdAt pr) = Ret T ->
  utcoffset T = None ->
  get_colour_coding_for_pr w pr days st
  = (Raise TypeError, {| ticks := S (ticks st); output := output st |}).
Proof.
  intros Hparse Hnaive.
  unfold get_colour_coding_for_pr, bind, lift, datetime_now_utc, datetime_sub.
  rewrite Hparse. cbn [utcoffset]. now rewrite Hnaive.
Qed.

Lemma naive_creation_time_raises_witness :
  get_colour_coding_for_pr world_with_naive_parser pr_listed default_days initial
  = (Raise TypeError, {| ticks := 1; output := [] |}).
Proof.
  apply (naive_creation_time_raises world_with_naive_parser pr_listed
           {| ordinal := 738003; hour := 12; minute := 0; second := 0;
              microsecond := 0; utcoffset := None |});
    reflexivity.
Defined.

(** ** The report, continued *)

Section ReportMore.

Variable w : World.

(** The body of the inner loop on a listed pull request with an aware
    creation time. *)
Lemma render_pr_listed (repos : toml_value) (len i : nat) (pr : PullRequest) (st : state) :
  py_in (repository_identifier pr) repos = Ret true ->
  aware w pr ->
  render_pr w repos len (i, pr) st
  = (Ret tt,
     {| ticks := S (ticks st);
        output := (output st
                   ++ [ (Stdout, title_line (colour_at w (ticks st) pr) pr);
                        (Stdout, link_line pr);
                        (Stdout, if (i + 1 =? len)%nat then newline else rule "-") ])%list |}).
Proof.
  intros Hin Haware. unfold render_pr. unfold bind at 1. unfold lift. rewrite Hin.
  cbn [negb]. unfold bind at 1. rewrite (colour_coding_colour_at w pr st Haware).
  unfold bind, print. cbn [ticks output].
  destruct (i + 1 =? len)%nat; cbn [ticks output]; now rewrite <- !app_assoc.
Qed.

Lemma render_loop (repos : toml_value) (prs : list PullRequest) (i len : nat) (st : state) :
  len = (i + length prs)%nat ->
  (forall pr, pr ∈ prs -> py_in (repository_identifier pr) repos = Ret true) ->
  (forall pr, pr ∈ prs -> aware w pr) ->
  for_each (enumerate_from i prs) (render_pr w repos len) st
  = (Ret tt,
     {| ticks := ticks st + length prs;
        output := (output st ++ rows w (ticks st) prs)%list |}).
Proof.
  revert i st. induction prs as [|pr rest IH]; intros i st Hlen Hin Haware.
  - destruct st as [t out]. cbn. now rewrite Nat.add_0_r, app_nil_r.
  - cbn [enumerate_from for_each]. unfold bind at 1.
    rewrite (render_pr_listed repos len i pr st) by (first [apply Hin|apply Haware]; left).
    rewrite (IH (S i)); cbn [ticks output length].
    + f_equal. f_equal; [lia|].
      rewrite <- app_assoc. cbn [app rows]. do 3 f_equal.
      destruct rest as [|pr' rest'].
      * replace (i + 1 =? len)%nat with true; [reflexivity|].
        symmetry. apply Nat.eqb_eq. cbn in Hlen. lia.
      * replace (i + 1 =? len)%nat with false; [reflexivity|].
        symmetry. apply Nat.eqb_neq. cbn in Hlen. lia.
    + cbn in Hlen. lia.
    + intros pr' Hpr'. apply Hin. now right.
    + intros pr' Hpr'. apply Haware. now right.
Qed.

Lemma for_each_app {A : Type} (l1 l2 : list A) (body : A -> M unit) (st : state) :
  for_each (l1 ++ l2) body st
  = match for_each l1 body st with
    | (Ret _, st') => for_each l2 body st'
    | other => other
    end.
Proof.
  revert st. induction l1 as [|x l1 IH]; intros st; [reflexivity|].
  cbn [app for_each]. unfold bind.
  destruct (body x st) as [[[]|c|e] st1]; [apply IH|reflexivity..].
Qed.

End ReportMore.

(** X12. The report of a user with pull requests in configured
    repositories: after the header and the rule of [=], for each of
    them, in the order of the response, the title in the colour of its
    age and the link, with a rule of [-] between two of them and two
    line ends after the last; the line [No pull requests!] only when
    there is none.  The clock is read once for each of them, and the
    creation times of the others are not parsed. *)
Theorem report_user_rows
    (w : World) (repos api_token username : toml_value) (user : User)
    (prs : list PullRequest) (st : state) :
  post_query w username api_token = Ret (Some user) ->
  filter_prs_by_repos (nodes (pullRequests user)) repos = Ret prs ->
  (forall pr, pr ∈ prs -> aware w pr) ->
  report_user w repos api_token username st
  = (Ret tt,
     {| ticks := ticks st + length prs;
        output := (output st
                   ++ [ (Stdout, header_line (name user)); (Stdout, rule "=") ]
                   ++ match prs with
                      | [] => [ (Stdout, "No pull requests!") ]
                      | _ => rows w (ticks st) prs
                      end)%list |}).
Proof.
  intros Hpost Hfilter Haware.
  unfold report_user, get_prs_for_user. unfold bind at 1. unfold lift at 1.
  rewrite Hpost. cbn beta iota.
  unfold bind at 1. unfold print at 1.
  unfold bind at 1. unfold print at 1.
  unfold bind at 1. unfold lift at 1. rewrite Hfilter.
  unfold bind at 1.
  assert (Hlisted : forall pr, pr ∈ prs ->
            py_in (repository_identifier pr) repos = Ret true)
    by (intros pr Hpr; now destruct (filter_prs_by_repos_listed _ _ _ Hfilter pr Hpr)).
  destruct prs as [|pr rest].
  - cbn. unfold ret. now rewrite Nat.add_0_r, <- !app_assoc.
  - cbn [length Nat.eqb ret].
    unfold enumerate. rewrite (render_loop w repos (pr :: rest) 0 _ _ eq_refl Hlisted Haware).
    cbn [ticks output]. now rewrite <- !app_assoc.
Qed.

(** Four pull requests, three of them listed, with a clock that
    advances by a day: the first two listed ones are fresh, the third
    is stale. *)
Lemma report_user_rows_witness :
  report_user world_with_clock (repo_array ["org/repo1"]) (TString "secret")
              (TString "alice") initial
  = (Ret tt,
     {| ticks := 3;
        output := [ (Stdout, header_line (Some "Alice"));
                    (Stdout, rule "=");
                    (Stdout, title_line bcolors.OKGREEN pr_listed);
                    (Stdout, link_line pr_listed);
                    (Stdout, rule "-");
                    (Stdout, title_line bcolors.OKGREEN pr_listed_utc);
                    (Stdout, link_line pr_listed_utc);
                    (Stdout, rule "-");
                    (Stdout, title_line bcolors.FAIL pr_listed);
                    (Stdout, link_line pr_listed);
                    (Stdout, newline) ] |}).
Proof.
  rewrite (report_user_rows world_with_clock (repo_array ["org/repo1"])
             (TString "secret") (TString "alice")
             (user_with "Alice" "alice" [pr_listed; pr_unlisted; pr_listed_utc; pr_listed])
             [pr_listed; pr_listed_utc; pr_listed] initial eq_refl eq_refl).
  - reflexivity.
  - intros pr Hpr.
    repeat (apply elem_of_cons in Hpr as [->|Hpr];
            [eexists _, _; split; reflexivity|]).
    now apply elem_of_nil in Hpr.
Defined.

(** X13. The loop over the users stops at the first request that raises
    and at the first response without a user (for which the subscript of
    line 139 raises [TypeError]): the run then ends with that exception
    and with the output of the users before, and the users after are
    never asked for. *)
Theorem request_failure_stops_run
    (w : World) (repos token username : toml_value)
    (before after : list toml_value) (e : exn) (st : state) :
  post_query w username token = Raise e
  \/ (post_query w username token = Ret None /\ e = TypeError) ->
  report_all w (TArray (before ++ username :: after)) repos token st
  = match report_all w (TArray before) repos token st with
    | (Ret _, st') => (Raise e, st')
    | other => other
    end.
Proof.
  intros Hfails. unfold report_all, bind, lift. cbn [py_iter].
  rewrite for_each_app.
  destruct (for_each before (report_user w repos token) st) as [[[]|c|e'] st'];
    [|reflexivity..].
  cbn [for_each]. unfold bind, report_user, get_prs_for_user, lift.
  destruct Hfails as [-> | [-> ->]]; reflexivity.
Qed.

Lemma request_failure_stops_run_witness :
  report_all world_with_failing_endpoint
             (TArray [TString "alice"; TString "bob"; TString "alice"])
             (repo_array ["org/repo1"]) (TString "secret") initial
  = (Raise RequestException,
     {| ticks := 1;
        output := [ (Stdout, header_line (Some "Alice"));
                    (Stdout, rule "=");
                    (Stdout, title_line bcolors.OKGREEN pr_listed);
                    (Stdout, link_line pr_listed);
                    (Stdout, newline) ] |}).
Proof.
  refine (eq_trans
            (request_failure_stops_run world_with_failing_endpoint
               (repo_array ["org/repo1"]) (TString "secret") (TString "bob")
               [TString "alice"] [TString "alice"] RequestException initial _) _).
  - left. reflexivity.
  - reflexivity.
Defined.

(** ** Exit codes and streams *)

Section Stays.

Context {A B : Type}.

Lemma stays_ret (a : A) : stays (ret a).
Proof. intros st r st' [= <- <-] c. discriminate. Qed.

Lemma stays_lift (r0 : result A) : (forall c, r0 <> Exit c) -> stays (lift r0).
Proof. intros Hr st r st' [= <- <-]. exact Hr. Qed.

Lemma stays_bind (m : M A) (k : A -> M B) :
  stays m -> (forall a, stays (k a)) -> stays (bind m k).
Proof.
  intros Hm Hk st r st' H. unfold bind in H.
  destruct (m st) as [[a|c|e] st1] eqn:Hmst.
  - exact (Hk a st1 r st' H).
  - now destruct (Hm st _ st1 Hmst c).
  - injection H as <- <-. discriminate.
Qed.

End Stays.

Lemma stays_print (f : stream) (s : string) : stays (print f s).
Proof. intros st r st' [= <- <-] c. discriminate. Qed.

Lemma stays_now (w : World) : stays (datetime_now_utc w).
Proof. intros st r st' [= <- <-] c. discriminate. Qed.

Lemma stays_for_each {A : Type} (l : list A) (body : A -> M unit) :
  (forall x, stays (body x)) -> stays (for_each l body).
Proof.
  intros Hbody. induction l as [|x l IH]; cbn [for_each].
  - apply stays_ret.
  - apply stays_bind; [apply Hbody|intros _; exact IH].
Qed.

Lemma py_in_no_exit (x : string) (container : toml_value) (c : Z) :
  py_in x container <> Exit c.
Proof. destruct container; discriminate. Qed.

Lemma py_iter_no_exit (container : toml_value) (c : Z) :
  py_iter container <> Exit c.
Proof. destruct container; discriminate. Qed.

Lemma filter_prs_by_repos_no_exit (P : list PullRequest) (repos : toml_value) (c : Z) :
  filter_prs_by_repos P repos <> Exit c.
Proof.
  induction P as [|pr P IH]; [discriminate|]. cbn [filter_prs_by_repos].
  pose proof (py_in_no_exit (repository_identifier pr) repos c).
  destruct (py_in (repository_identifier pr) repos); cbn [rbind];
    [|congruence|discriminate].
  destruct (filter_prs_by_repos P repos); cbn [rbind]; congruence.
Qed.

Lemma timedelta_new_no_exit (days seconds microseconds c : Z) :
  timedelta_new days seconds microseconds <> Exit c.
Proof. unfold timedelta_new. destruct (_ >? _)%Z; discriminate. Qed.

Lemma datetime_sub_no_exit (self other : datetime) (c : Z) :
  datetime_sub self other <> Exit c.
Proof.
  unfold datetime_sub.
  destruct (utcoffset self), (utcoffset other); try discriminate.
  destruct (timedelta_eqb _ _); discriminate.
Qed.

Section Outcomes.

Variable w : World.

Lemma report_user_stays (repos api_token username : toml_value) :
  libraries_do_not_exit w -> stays (report_user w repos api_token username).
Proof.
  intros (_ & Hpost & Hparse). unfold report_user, get_prs_for_user.
  apply stays_bind; [apply stays_lift, Hpost|]. intros [user|].
  2:{ apply stays_lift. discriminate. }
  apply stays_bind; [apply stays_print|]. intros _.
  apply stays_bind; [apply stays_print|]. intros _.
  apply stays_bind; [apply stays_lift, filter_prs_by_repos_no_exit|].
  intros pull_requests.
  apply stays_bind.
  { destruct (length pull_requests =? 0)%nat; [apply stays_print|apply stays_ret]. }
  intros _. apply stays_for_each. intros [i pr]. unfold render_pr.
  apply stays_bind; [apply stays_lift, py_in_no_exit|]. intros listed.
  destruct listed; cbn [negb]; [|apply stays_ret].
  apply stays_bind.
  { unfold get_colour_coding_for_pr.
    apply stays_bind; [apply stays_lift, Hparse|]. intros created_at.
    apply stays_bind; [apply stays_now|]. intros now.
    apply stays_bind; [apply stays_lift, datetime_sub_no_exit|]. intros age.
    apply stays_bind; [apply stays_lift, timedelta_new_no_exit|]. intros threshold.
    destruct (timedelta_gtb _ _); apply stays_ret. }
  intros colour.
  apply stays_bind; [apply stays_print|]. intros _.
  apply stays_bind; [apply stays_print|]. intros _.
  destruct (i + 1 =? _)%nat; apply stays_print.
Qed.

Lemma report_all_stays (usernames repos token : toml_value) :
  libraries_do_not_exit w -> stays (report_all w usernames repos token).
Proof.
  intros Hlib. unfold report_all.
  apply stays_bind; [apply stays_lift, py_iter_no_exit|]. intros users.
  apply stays_for_each. intros username. now apply report_user_stays.
Qed.

(** The report loop writes on the standard output only. *)
Lemma report_all_stdout (usernames repos token : toml_value) :
  emits (fun e => e.1 = Stdout) (fun _ => True) (report_all w usernames repos token).
Proof.
  unfold report_all.
  eapply emits_bind; [apply emits_lift|]. intros users _.
  apply emits_for_each. intros username _.
  unfold report_user, get_prs_for_user.
  eapply emits_bind; [apply emits_lift|]. intros [user|] _; cbn beta iota.
  2:{ eapply emits_weaken; [|apply emits_lift]. trivial. }
  eapply emits_bind; [now apply emits_print|]. intros _ _.
  eapply emits_bind; [now apply emits_print|]. intros _ _.
  eapply emits_bind; [apply emits_lift|]. intros pull_requests _.
  eapply emits_bind with (R := fun _ => True).
  { destruct (length pull_requests =? 0)%nat; [now apply emits_print|now apply emits_ret]. }
  intros _ _. apply emits_for_each. intros [i pr] _. unfold render_pr.
  eapply emits_bind; [apply emits_lift|]. intros listed _.
  destruct listed; cbn [negb]; [|now apply emits_ret].
  eapply emits_bind; [apply get_colour_coding_for_pr_emits|]. intros colour _.
  eapply emits_bind; [now apply emits_print|]. intros _ _.
  eapply emits_bind; [now apply emits_print|]. intros _ _.
  destruct (i + 1 =? _)%nat; now apply emits_print.
Qed.

(** The loop over the candidates leaves through [sys.exit] only when
    [toml.load] does. *)
Lemma load_candidates_exit (candidates : list string) (settings : option document)
    (st st' : state) (c : Z) :
  load_candidates w candidates settings st = (Exit c, st') ->
  exists path, toml_load w path = Exit c.
Proof.
  revert settings. induction candidates as [|x rest IH]; intros settings H.
  - discriminate.
  - cbn [load_candidates] in H.
    destruct (isfile w (expanduser w x) && negb (isdir w (expanduser w x))
              && negb (islink w (expanduser w x))); [|now apply IH in H].
    unfold bind, lift in H.
    destruct (toml_load w (expanduser w x)) as [d|c'|e] eqn:Hload.
    + now apply IH in H.
    + injection H as -> <-. now exists (expanduser w x).
    + discriminate.
Qed.

(** The outcomes of [get_settings]: it passes on what the loop over the
    candidates ends with and leaves the state alone, or it writes one
    line and leaves with code 3 or 2. *)
Lemma get_settings_outcomes (st st' : state)
    (r : result (toml_value * toml_value * option toml_value)) :
  get_settings w st = (r, st') ->
  (st' = st
   /\ ((exists v, r = Ret v) \/ (exists e, r = Raise e)
       \/ (exists c path, r = Exit c /\ toml_load w path = Exit c)))
  \/ (r = Exit 3 /\ st' = wrote st (Stdout, not_found_message))
  \/ (r = Exit 2 /\ (st' = wrote st (Stderr, usernames_missing_message)
                     \/ st' = wrote st (Stderr, repos_missing_message))).
Proof.
  unfold get_settings. unfold bind at 1.
  destruct (load_candidates w paths None st) as [[settings|c|e] st1] eqn:Hload;
    pose proof (load_candidates_state w _ _ _ _ _ Hload) as ->.
  - destruct settings as [d|]; [|intros [= <- <-]; right; left; now split].
    destruct (bool_decide (size d = 0)); [intros [= <- <-]; right; left; now split|].
    destruct (d !! "usernames"); [|intros [= <- <-]; right; right; split; [reflexivity|now left]].
    destruct (d !! "repos"); [|intros [= <- <-]; right; right; split; [reflexivity|now right]].
    intros [= <- <-]. left. split; [reflexivity|]. left. eauto.
  - intros [= <- <-]. left. split; [reflexivity|]. right. right.
    destruct (load_candidates_exit _ _ _ _ _ Hload) as [path Hpath]. eauto.
  - intros [= <- <-]. left. split; [reflexivity|]. right. left. eauto.
Qed.

End Outcomes.

Lemma example_world_libraries (files : gmap string document) (token : option string)
    (users : gmap string User) (created now : datetime) :
  libraries_do_not_exit (example_world files token users created now).
Proof.
  repeat split.
  - intros path c. cbn. destruct (files !! path); discriminate.
  - intros username api_token c. cbn. destruct username; discriminate.
  - intros s c. discriminate.
Defined.

(** X14. The run leaves through [sys.exit] only with the codes 3, 2 and
    1, each time with one diagnostic as its whole output and before any
    request or reading of the clock: once the report has begun the
    script does not exit.  The libraries are taken not to call
    [sys.exit] themselves. *)
Theorem exits_only_before_report (w : World) (c : Z) (st : state) :
  libraries_do_not_exit w ->
  run w = (Exit c, st) ->
  (c = 3%Z /\ st = {| ticks := 0; output := [(Stdout, not_found_message)] |})
  \/ (c = 2%Z /\ (st = {| ticks := 0; output := [(Stderr, usernames_missing_message)] |}
                  \/ st = {| ticks := 0; output := [(Stderr, repos_missing_message)] |}))
  \/ (c = 1%Z /\ st = {| ticks := 0; output := [(Stderr, token_missing_message)] |}).
Proof.
  intros Hlib. unfold run, main. unfold bind at 1.
  destruct (get_settings w initial) as [r1 st1] eqn:Hgs.
  apply get_settings_outcomes in Hgs
    as [[-> [[v ->]|[[e ->]|(c' & path & -> & Hexit)]]]|[[-> ->]|[-> [-> | ->]]]].
  - destruct v as [[usernames repos] api_token]. cbn zeta.
    destruct (if token_falsy api_token
              then TString <$> environ_get w "GITHUB_TOKEN_GALAXY"
              else api_token) as [token|].
    + destruct (negb (truthy token)).
      * intros [= <- <-]. right. right. now split.
      * intros Hrun. now destruct (report_all_stays w usernames repos token Hlib _ _ _ Hrun c).
    + intros [= <- <-]. right. right. now split.
  - discriminate.
  - now destruct Hlib as [Hload _]; destruct (Hload path c').
  - intros [= <- <-]. left. now split.
  - intros [= <- <-]. right. left. split; [reflexivity|now left].
  - intros [= <- <-]. right. left. split; [reflexivity|now right].
Qed.

Lemma exits_only_before_report_witness :
  (1 = 3 /\ {| ticks := 0; output := [(Stderr, token_missing_message)] |}
           = {| ticks := 0; output := [(Stdout, not_found_message)] |})%Z
  \/ (1 = 2 /\ ({| ticks := 0; output := [(Stderr, token_missing_message)] |}
                 = {| ticks := 0; output := [(Stderr, usernames_missing_message)] |}
                 \/ {| ticks := 0; output := [(Stderr, token_missing_message)] |}
                    = {| ticks := 0; output := [(Stderr, repos_missing_message)] |}))%Z
  \/ (1 = 1 /\ {| ticks := 0; output := [(Stderr, token_missing_message)] |}
              = {| ticks := 0; output := [(Stderr, token_missing_message)] |})%Z.
Proof.
  apply (exits_only_before_report world_without_token).
  - apply example_world_libraries.
  - reflexivity.
Defined.

(** X15. The script writes to the standard error stream only a
    diagnostic that it leaves after: whenever a line of the output of a
    run is on that stream, it is the whole output, and the run ends with
    exit code 2 (a missing key) or with exit code 1 (no token).  The
    report and the not-found line go to the standard output. *)
Theorem stderr_only_before_exit (w : World) (r : result unit) (st : state) (s : string) :
  run w = (r, st) ->
  (Stderr, s) ∈ output st ->
  output st = [(Stderr, s)]
  /\ ((r = Exit 2 /\ (s = usernames_missing_message \/ s = repos_missing_message))
      \/ (r = Exit 1 /\ s = token_missing_message)).
Proof.
  unfold run, main. unfold bind at 1.
  assert (Hone : forall (s0 : string) (P : Prop),
            (Stderr, s) ∈ [(Stderr, s0)] -> (s = s0 -> P) -> P).
  { intros s0 P Hin HP. apply elem_of_cons in Hin as [[= ->]|Hin]; [now apply HP|].
    now apply elem_of_nil in Hin. }
  destruct (get_settings w initial) as [r1 st1] eqn:Hgs.
  apply get_settings_outcomes in Hgs
    as [[-> [[v ->]|[[e ->]|(c' & path & -> & Hexit)]]]|[[-> ->]|[-> [-> | ->]]]].
  - destruct v as [[usernames repos] api_token]. cbn zeta.
    assert (Hexit1 : (Exit 1, wrote initial (Stderr, token_missing_message)) = (r, st) ->
              (Stderr, s) ∈ output st ->
              output st = [(Stderr, s)]
              /\ ((r = Exit 2 /\ (s = usernames_missing_message \/ s = repos_missing_message))
                  \/ (r = Exit 1 /\ s = token_missing_message))).
    { intros [= <- <-] Hin. cbn in Hin |- *.
      apply (Hone _ _ Hin). intros ->. split; [reflexivity|]. right. now split. }
    destruct (if token_falsy api_token
              then TString <$> environ_get w "GITHUB_TOKEN_GALAXY"
              else api_token) as [token|]; [|exact Hexit1].
    destruct (negb (truthy token)); [exact Hexit1|].
    intros Hrun Hin.
    destruct (report_all_stdout w usernames repos token _ _ _ Hrun)
      as [(new & Hout & Hall) _].
    cbn in Hout. rewrite Hout in Hin. rewrite Forall_forall in Hall.
    now apply Hall in Hin.
  - intros [= <- <-] Hin. now apply elem_of_nil in Hin.
  - intros [= <- <-] Hin. now apply elem_of_nil in Hin.
  - intros [= <- <-] Hin. cbn in Hin.
    apply elem_of_cons in Hin as [[=]|Hin]. now apply elem_of_nil in Hin.
  - intros [= <- <-] Hin. cbn in Hin |- *.
    apply (Hone _ _ Hin). intros ->. split; [reflexivity|]. left. split; [reflexivity|now left].
  - intros [= <- <-] Hin. cbn in Hin |- *.
    apply (Hone _ _ Hin). intros ->. split; [reflexivity|]. left. split; [reflexivity|now right].
Qed.

Lemma stderr_only_before_exit_witness :
  output (run world_without_repos).2 = [(Stderr, repos_missing_message)]
  /\ (((run world_without_repos).1 = Exit 2
       /\ (repos_missing_message = usernames_missing_message
           \/ repos_missing_message = repos_missing_message))
      \/ ((run world_without_repos).1 = Exit 1
          /\ repos_missing_message = token_missing_message)).
Proof.
  apply (stderr_only_before_exit world_without_repos _ _ repos_missing_message eq_refl).
  left.
Defined.

(** ** The repository filter, continued *)

Section FilterMore.

Lemma prefix_append (x s : string) :
  String.prefix x s = true <-> exists b, s = x +:+ b.
Proof.
  revert s. induction x as [|a x IH]; intros s.
  - split; [intros _; now exists s|intros _; now destruct s].
  - destruct s as [|c s]; cbn [String.prefix].
    + split; [discriminate|intros [b Hb]; discriminate].
    + destruct (ascii_dec a c) as [->|Hne].
      * rewrite IH. split; intros [b Hb]; exists b.
        -- now rewrite Hb.
        -- now injection Hb.
      * split; [discriminate|intros [b Hb]; injection Hb as Hc _; congruence].
Qed.

(** The substring test holds exactly of the strings that occur inside. *)
Lemma str_contains_occurs (x s : string) :
  str_contains x s = true <-> exists a b, s = a +:+ x +:+ b.
Proof.
  induction s as [|c s IH]; cbn [str_contains].
  - rewrite orb_false_r, prefix_append. split.
    + intros [b Hb]. now exists "", b.
    + intros (a & b & Hab). destruct a; [now exists b|discriminate].
  - rewrite orb_true_iff, prefix_append, IH. split.
    + intros [[b Hb]|(a & b & Hab)].
      * now exists "", b.
      * exists (String c a), b. cbn. now rewrite Hab.
    + intros (a & b & Hab). destruct a as [|c' a].
      * left. now exists b.
      * right. exists a, b. now injection Hab.
Qed.

Lemma filter_prs_by_repos_string (P : list PullRequest) (s : string) :
  filter_prs_by_repos P (TString s)
  = Ret (filter (fun pr => str_contains (repository_identifier pr) s = true) P).
Proof.
  induction P as [|pr P IH]; [reflexivity|].
  cbn [filter_prs_by_repos py_in rbind]. rewrite IH. cbn [rbind].
  rewrite filter_cons.
  destruct (str_contains (repository_identifier pr) s) eqn:Hc.
  - now rewrite decide_True.
  - now rewrite decide_False.
Qed.

End FilterMore.

(** X16. The filter reads the array of repositories as a set: two
    arrays with the same strings, in whatever order and however often,
    keep the same pull requests. *)
Theorem filter_prs_by_repos_set (P : list PullRequest) (R R' : list string) :
  (forall x, x ∈ R <-> x ∈ R') ->
  filter_prs_by_repos P (repo_array R) = filter_prs_by_repos P (repo_array R').
Proof.
  intros Hsame. rewrite !filter_prs_by_repos_array. f_equal.
  apply list_filter_iff. intros pr. apply Hsame.
Qed.

Lemma filter_prs_by_repos_set_witness :
  filter_prs_by_repos [pr_listed; pr_unlisted] (repo_array ["org/repo1"; "org/repo3"])
  = filter_prs_by_repos [pr_listed; pr_unlisted]
                        (repo_array ["org/repo3"; "org/repo1"; "org/repo3"]).
Proof.
  apply (filter_prs_by_repos_set [pr_listed; pr_unlisted]
           ["org/repo1"; "org/repo3"] ["org/repo3"; "org/repo1"; "org/repo3"]).
  intros x. rewrite !elem_of_cons, !elem_of_nil. tauto.
Defined.

(** X17. Two filters in a row keep the pull requests whose repository
    is in both arrays, in either order of the two filters. *)
Theorem filter_prs_by_repos_twice (P : list PullRequest) (R1 R2 : list string) :
  rbind (filter_prs_by_repos P (repo_array R1))
        (fun P' => filter_prs_by_repos P' (repo_array R2))
  = Ret (filter (fun pr => repository_identifier pr ∈ R1
                           /\ repository_identifier pr ∈ R2) P)
  /\ rbind (filter_prs_by_repos P (repo_array R1))
           (fun P' => filter_prs_by_repos P' (repo_array R2))
     = rbind (filter_prs_by_repos P (repo_array R2))
             (fun P' => filter_prs_by_repos P' (repo_array R1)).
Proof.
  rewrite !filter_prs_by_repos_array. cbn [rbind].
  rewrite !filter_prs_by_repos_array, !list_filter_filter.
  split; f_equal; apply list_filter_iff; intros pr; tauto.
Qed.

(** X18. The filter of a concatenation is the concatenation of the
    filters, for every value of [repos]; where the membership test
    raises on one part it raises on the whole. *)
Theorem filter_prs_by_repos_app (P1 P2 : list PullRequest) (repos : toml_value) :
  filter_prs_by_repos (P1 ++ P2) repos
  = rbind (filter_prs_by_repos P1 repos) (fun kept1 =>
    rbind (filter_prs_by_repos P2 repos) (fun kept2 =>
    Ret (kept1 ++ kept2)%list)).
Proof.
  induction P1 as [|pr P1 IH].
  - cbn. destruct (filter_prs_by_repos P2 repos); reflexivity.
  - cbn [app filter_prs_by_repos]. rewrite IH.
    destruct (py_in (repository_identifier pr) repos) as [keep| |]; cbn [rbind];
      [|reflexivity..].
    destruct (filter_prs_by_repos P1 repos) as [kept1| |]; cbn [rbind];
      [|reflexivity..].
    destruct (filter_prs_by_repos P2 repos) as [kept2| |]; cbn [rbind];
      [|reflexivity..].
    now destruct keep.
Qed.

(** X19. When [repos] is a string and not an array, the membership test
    of line 126 is the substring test: the filter keeps the pull
    requests whose repository identifier occurs somewhere inside that
    string, so also those of a repository whose identifier is a part of
    the configured one. *)
Theorem filter_prs_by_repos_substring (P : list PullRequest) (s : string) :
  exists P',
    filter_prs_by_repos P (TString s) = Ret P'
    /\ P' `sublist_of` P
    /\ (forall pr, pr ∈ P' <->
          pr ∈ P /\ exists a b, s = a +:+ repository_identifier pr +:+ b).
Proof.
  exists (filter (fun pr => str_contains (repository_identifier pr) s = true) P).
  split; [apply filter_prs_by_repos_string|]. split; [apply sublist_filter|].
  intros pr. rewrite list_elem_of_filter, str_contains_occurs. tauto.
Qed.

(** A pull request of [org/repo] is kept when [repos] is the string
    [org/repo1]. *)
Example filter_prs_by_repos_substring_sample :
  let pr := {| repository := {| id := "R_3"; nameWithOwner := "org/repo" |};
               createdAt := "2021-08-01T10:00:00Z"; number := 1;
               title := "Tidy up"; url := "https://github.com/org/repo/pull/1" |} in
  filter_prs_by_repos [pr; pr_unlisted] (TString "org/repo1") = Ret [pr]
  /\ filter_prs_by_repos [pr; pr_unlisted] (repo_array ["org/repo1"]) = Ret [].
Proof. split; reflexivity. Qed.

(** X20. When [repos] is an integer or a boolean, the membership test of
    line 126 raises [TypeError] at the first pull request of a response:
    the report of a user with open pull requests ends with that
    exception after the header and the rule of [=], while a user without
    any still gets the line [No pull requests!]. *)
Theorem report_user_repos_not_iterable
    (w : World) (repos api_token username : toml_value) (user : User) (st : state) :
  post_query w username api_token = Ret (Some user) ->
  (exists z, repos = TInteger z) \/ (exists b, repos = TBool b) ->
  report_user w repos api_token username st
  = match nodes (pullRequests user) with
    | [] =>
        (Ret tt,
         {| ticks := ticks st;
            output := (output st ++ [ (Stdout, header_line (name user));
                                      (Stdout, rule "=");
                                      (Stdout, "No pull requests!") ])%list |})
    | _ :: _ =>
        (Raise TypeError,
         {| ticks := ticks st;
            output := (output st ++ [ (Stdout, header_line (name user));
                                      (Stdout, rule "=") ])%list |})
    end.
Proof.
  intros Hpost Hrepos.
  unfold report_user, get_prs_for_user, bind, lift, print. rewrite Hpost.
  cbn [ticks output].
  destruct Hrepos as [[z ->]|[b ->]];
    destruct (nodes (pullRequests user)); cbn; now rewrite <- !app_assoc.
Qed.

Lemma report_user_repos_not_iterable_witness :
  report_user world_of_alice (TBool true) (TString "secret") (TString "alice") initial
  = (Raise TypeError,
     {| ticks := 0;
        output := [ (Stdout, header_line (Some "Alice")); (Stdout, rule "=") ] |}).
Proof.
  refine (eq_trans
            (report_user_repos_not_iterable world_of_alice (TBool true)
               (TString "secret") (TString "alice") alice initial eq_refl _) _).
  - right. now exists true.
  - reflexivity.
Defined.

(** A threshold beyond the range of [timedelta]. *)
Example colour_with_threshold_out_of_range :
  get_colour_coding_for_pr world_of_alice pr_listed 1000000000 initial
  = (Raise OverflowError, {| ticks := 1; output := [] |})
  /\ (get_colour_coding_for_pr world_of_alice pr_listed 999999999 initial).1
     = Ret bcolors.OKGREEN.
Proof. split; reflexivity. Qed.

(** Iterating a string visits its characters, not its bytes. *)
Example chars_of_string :
  py_iter (TString "zoë") = Ret [TString "z"; TString "o"; TString "ë"]
  /\ String.length "zoë" = 4.
Proof. split; reflexivity. Qed.
